(** * Scan lifecycle manager of nuclei-service-demo

    A shallow embedding of the Go packages [model], [repository/postgres]
    and [service] (the scan store, the nuclei adapter with its registry of
    cancel functions, the submission service and the polling worker),
    followed by the properties of the lifecycle specification that hold,
    or fail, on that code. *)

From Stdlib Require Import ZArith.
From stdpp Require Import base strings list gmap pretty.

(** ** package model (internal/model) *)

Module model.

(** [type ScanStatus = string] with its five constants. *)
Definition ScanStatus : Type := string.
Definition ScanStatusPending : ScanStatus := "pending".
Definition ScanStatusRunning : ScanStatus := "running".
Definition ScanStatusCompleted : ScanStatus := "completed".
Definition ScanStatusFailed : ScanStatus := "failed".
Definition ScanStatusCancelled : ScanStatus := "cancelled".

(** Go's [int] is 64 bits wide; the code only compares option values
    with zero and hands them on, so they are kept as [Z]. *)
Record ScanOptions : Type := {
  Concurrency : Z;
  RateLimit : Z;
  Timeout : Z;
  Retries : Z;
  Headless : bool
}.

(** [time.Time] is an instant of the model clock. The [Metadata] map of a
    result is never filled nor stored by the code and is left out. *)
Record ScanResult : Type := {
  result_ID : string;
  ScanID : string;
  TemplateID : string;
  TemplateName : string;
  Severity : string;
  Matched : bool;
  Host : string;
  MatchedAt : Z;
  MatcherName : string;
  ExtractedResults : list string;
  Request : string;
  Response : string
}.

(** A nil slice and an empty slice are both the empty list; a nil pointer
    is [None]. *)
Record Scan : Type := {
  ID : string;
  Target : string;
  Status : ScanStatus;
  TemplateIDs : list string;
  Tags : list string;
  Options : option ScanOptions;
  Error : string;
  CreatedAt : Z;
  UpdatedAt : Z;
  StartedAt : option Z;
  CompletedAt : option Z;
  Results : list ScanResult
}.

Record StartScanInput : Type := {
  input_Target : string;
  input_TemplateIDs : list string;
  input_Tags : list string;
  input_Options : option ScanOptions
}.

(** [scan.Status = st] on a scan held by pointer. *)
Definition set_Status (st : ScanStatus) (s : Scan) : Scan :=
  {| ID := ID s; Target := Target s; Status := st;
     TemplateIDs := TemplateIDs s; Tags := Tags s; Options := Options s;
     Error := Error s; CreatedAt := CreatedAt s; UpdatedAt := UpdatedAt s;
     StartedAt := StartedAt s; CompletedAt := CompletedAt s;
     Results := Results s |}.

(** [scan.Error = e]. *)
Definition set_Error (e : string) (s : Scan) : Scan :=
  {| ID := ID s; Target := Target s; Status := Status s;
     TemplateIDs := TemplateIDs s; Tags := Tags s; Options := Options s;
     Error := e; CreatedAt := CreatedAt s; UpdatedAt := UpdatedAt s;
     StartedAt := StartedAt s; CompletedAt := CompletedAt s;
     Results := Results s |}.

Definition ParseScanStatus (s : string) : ScanStatus :=
  if String.eqb s "pending" then ScanStatusPending
  else if String.eqb s "running" then ScanStatusRunning
  else if String.eqb s "completed" then ScanStatusCompleted
  else if String.eqb s "failed" then ScanStatusFailed
  else if String.eqb s "cancelled" then ScanStatusCancelled
  else ScanStatusPending.

End model.

(** ** The world the services run in *)

(** A row of table [scans] (schema: id, target, status, created_at,
    updated_at, started_at, completed_at, error, options, template_ids,
    tags); nullable columns are options. *)
Record ScanRow : Type := {
  row_id : string;
  row_target : string;
  row_status : string;
  row_created_at : Z;
  row_updated_at : Z;
  row_started_at : option Z;
  row_completed_at : option Z;
  row_error : option string;
  row_options : option model.ScanOptions;
  row_template_ids : list string;
  row_tags : list string
}.

(** A row of table [scan_results], with the columns [AddResult] binds. *)
Record ResultRow : Type := {
  res_scan_id : string;
  res_template_id : string;
  res_template_name : string;
  res_severity : string;
  res_matched : bool;
  res_host : string;
  res_matched_at : Z;
  res_matcher_name : string;
  res_extracted_results : list string;
  res_request : string;
  res_response : string
}.

(** The state every operation reads and writes:
    - the two tables, in insertion order;
    - [cancels], the map of [nucleiService] from scan id to the cancel
      function of the context created for the run; a context is named by
      a number, [next_ctx] is the next one [context.WithCancel] hands out
      and [cancelled] lists the contexts whose cancel function was called;
    - [clock], read and advanced by [time.Now];
    - [faults], the fate of the coming database statements, one boolean
      per statement ([true]: the driver or the server rejects it, for a
      reason the model does not compute, such as a lost connection); an
      exhausted schedule means no more rejections;
    - [nuclei_calls], the scans handed to [nucleiService.StartScan] so far
      (a trace, never read by the code). *)
Record World : Type := {
  scans : list ScanRow;
  scan_results : list ResultRow;
  cancels : gmap string nat;
  cancelled : list nat;
  next_ctx : nat;
  clock : Z;
  faults : list bool;
  nuclei_calls : list model.Scan
}.

Definition set_scans (rs : list ScanRow) (w : World) : World :=
  {| scans := rs; scan_results := scan_results w; cancels := cancels w;
     cancelled := cancelled w; next_ctx := next_ctx w; clock := clock w;
     faults := faults w; nuclei_calls := nuclei_calls w |}.

Definition set_scan_results (rs : list ResultRow) (w : World) : World :=
  {| scans := scans w; scan_results := rs; cancels := cancels w;
     cancelled := cancelled w; next_ctx := next_ctx w; clock := clock w;
     faults := faults w; nuclei_calls := nuclei_calls w |}.

Definition set_cancels (m : gmap string nat) (w : World) : World :=
  {| scans := scans w; scan_results := scan_results w; cancels := m;
     cancelled := cancelled w; next_ctx := next_ctx w; clock := clock w;
     faults := faults w; nuclei_calls := nuclei_calls w |}.

Definition set_cancelled (cs : list nat) (w : World) : World :=
  {| scans := scans w; scan_results := scan_results w; cancels := cancels w;
     cancelled := cs; next_ctx := next_ctx w; clock := clock w;
     faults := faults w; nuclei_calls := nuclei_calls w |}.

Definition set_next_ctx (n : nat) (w : World) : World :=
  {| scans := scans w; scan_results := scan_results w; cancels := cancels w;
     cancelled := cancelled w; next_ctx := n; clock := clock w;
     faults := faults w; nuclei_calls := nuclei_calls w |}.

Definition set_clock (t : Z) (w : World) : World :=
  {| scans := scans w; scan_results := scan_results w; cancels := cancels w;
     cancelled := cancelled w; next_ctx := next_ctx w; clock := t;
     faults := faults w; nuclei_calls := nuclei_calls w |}.

Definition set_faults (fs : list bool) (w : World) : World :=
  {| scans := scans w; scan_results := scan_results w; cancels := cancels w;
     cancelled := cancelled w; next_ctx := next_ctx w; clock := clock w;
     faults := fs; nuclei_calls := nuclei_calls w |}.

Definition set_nuclei_calls (cs : list model.Scan) (w : World) : World :=
  {| scans := scans w; scan_results := scan_results w; cancels := cancels w;
     cancelled := cancelled w; next_ctx := next_ctx w; clock := clock w;
     faults := faults w; nuclei_calls := cs |}.

(** Go's [error]: [None] is [nil], [Some msg] an error whose [Error()] is
    [msg]. *)
Definition error : Type := option string.

(** Computations on the world. Go code inspects every [err] itself, so
    errors are ordinary results and only the world is threaded. *)
Definition M (A : Type) : Type := World -> A * World.

Definition ret {A : Type} (a : A) : M A := fun w => (a, w).

Definition bind {A B : Type} (m : M A) (k : A -> M B) : M B :=
  fun w => let (a, w') := m w in k a w'.

Notation "x <- m ;; k" := (bind m (fun x => k))
  (at level 100, m at next level, right associativity).

Definition modify (f : World -> World) : M unit := fun w => (tt, f w).
Definition gets {A : Type} (f : World -> A) : M A := fun w => (f w, w).

(** [time.Now()]: the clock is read and moves on. *)
Definition time_Now : M Z :=
  fun w => (clock w, set_clock (clock w + 1)%Z w).

(** [for _, x := range xs { body x }] *)
Fixpoint for_range {A : Type} (xs : list A) (body : A -> M unit) : M unit :=
  match xs with
  | [] => ret tt
  | x :: xs' => _ <- body x ;; for_range xs' body
  end.

(** ** package postgres (internal/repository/postgres), scan repository *)

Module ScanRepository.

(** A statement is sent to the database: the schedule of the world says
    whether it is rejected before it takes effect. *)
Definition statement_rejected : M bool :=
  fun w =>
    match faults w with
    | [] => (false, w)
    | b :: fs => (b, set_faults fs w)
    end.

Definition driver_error : string := "driver: bad connection".

(** [repository.ErrNotFound] *)
Definition ErrNotFound : string := "not found".

(** The conditions [List] appends to [WHERE 1=1]: [s.status = $p] and
    [s.target = $p]. *)
Inductive Cond : Type :=
| status_eq (p : nat)
| target_eq (p : nat).

Definition placeholder (c : Cond) : nat :=
  match c with
  | status_eq p => p
  | target_eq p => p
  end.

(** PostgreSQL accepts a statement bound to [n] arguments when its
    parameters are exactly [$1] to [$n]: every placeholder lies in that
    range and every argument is referred to. *)
Definition params_ok (conds : list Cond) (args : list string) : bool :=
  forallb (fun c => (1 <=? placeholder c) && (placeholder c <=? length args)) conds
  && forallb (fun i => existsb (fun c => placeholder c =? i) conds)
       (seq 1 (length args)).

Definition arg_eqb (args : list string) (p : nat) (v : string) : bool :=
  match args !! (p - 1) with
  | Some a => String.eqb v a
  | None => false
  end.

Definition holds (args : list string) (r : ScanRow) (c : Cond) : bool :=
  match c with
  | status_eq p => arg_eqb args p (row_status r)
  | target_eq p => arg_eqb args p (row_target r)
  end.

Definition params_error : string :=
  "pq: statement parameters do not match the bound arguments".

(** [r.db.QueryContext(ctx, query, args...)] for the query of [List]:
    the selected rows, in table order. *)
Definition QueryContext (conds : list Cond) (args : list string)
  : M (list ScanRow * error) :=
  rej <- statement_rejected ;;
  if rej : bool then ret ([], Some driver_error)
  else if params_ok conds args then
    rows <- gets scans ;;
    ret (List.filter (fun r => forallb (holds args r) conds) rows, None)
  else ret ([], Some params_error).

(** The part of [List] and [Get] that fills a [model.Scan] from a selected
    row: five columns are read, the rest is "Set default values". *)
Definition scan_of_row (r : ScanRow) : model.Scan :=
  {| model.ID := row_id r;
     model.Target := row_target r;
     model.Status := model.ParseScanStatus (row_status r);
     model.TemplateIDs := [];
     model.Tags := [];
     model.Options := Some {| model.Concurrency := 10;
                              model.RateLimit := 100;
                              model.Timeout := 30;
                              model.Retries := 3;
                              model.Headless := false |};
     model.Error := "";
     model.CreatedAt := row_created_at r;
     model.UpdatedAt := row_updated_at r;
     model.StartedAt := None;
     model.CompletedAt := None;
     model.Results := [] |}.

(** The query text and its arguments grow together; the template filter
    is skipped by the code ("the column doesn't exist"). *)
Definition list_query (status target templateID : option string)
  : list Cond * list string :=
  let q0 : list Cond * list string := ([], []) in
  let q1 := match status with
            | Some s => (q0.1 ++ [status_eq 1], q0.2 ++ [s])
            | None => q0
            end in
  let q2 := match target with
            | Some t => (q1.1 ++ [target_eq 2], q1.2 ++ [t])
            | None => q1
            end in
  q2.

Definition List (status target templateID : option string)
  : M (list model.Scan * error) :=
  let q := list_query status target templateID in
  res <- QueryContext q.1 q.2 ;;
  match res.2 with
  | Some e => ret ([], Some e)
  | None => ret (map scan_of_row res.1, None)
  end.

Definition Get (id : string) : M (option model.Scan * error) :=
  rej <- statement_rejected ;;
  if rej : bool then ret (None, Some driver_error)
  else
    rows <- gets scans ;;
    match List.find (fun r => String.eqb (row_id r) id) rows with
    | None => ret (None, Some ErrNotFound)
    | Some r => ret (Some (scan_of_row r), None)
    end.

Definition unique_violation : string :=
  "pq: duplicate key value violates unique constraint".

(** [INSERT INTO scans (id, target, status, created_at, updated_at,
    template_ids, tags)]: the columns left out have no default and stay
    NULL; [id] is the primary key. The returned id is the one inserted, so
    [scan.ID = id] changes nothing. *)
Definition Create (scan : model.Scan) : M error :=
  now <- time_Now ;;
  rej <- statement_rejected ;;
  if rej : bool then ret (Some driver_error)
  else
    rows <- gets scans ;;
    if existsb (fun r => String.eqb (row_id r) (model.ID scan)) rows
    then ret (Some unique_violation)
    else
      _ <- modify (set_scans (rows ++ [
             {| row_id := model.ID scan;
                row_target := model.Target scan;
                row_status := model.Status scan;
                row_created_at := now;
                row_updated_at := now;
                row_started_at := None;
                row_completed_at := None;
                row_error := None;
                row_options := None;
                row_template_ids := model.TemplateIDs scan;
                row_tags := model.Tags scan |} ]) ) ;;
      ret None.

(** [UPDATE scans SET target = $1, status = $2, updated_at = $3
    WHERE id = $4] on one row. *)
Definition update_row (scan : model.Scan) (now : Z) (r : ScanRow) : ScanRow :=
  if String.eqb (row_id r) (model.ID scan) then
    {| row_id := row_id r;
       row_target := model.Target scan;
       row_status := model.Status scan;
       row_created_at := row_created_at r;
       row_updated_at := now;
       row_started_at := row_started_at r;
       row_completed_at := row_completed_at r;
       row_error := row_error r;
       row_options := row_options r;
       row_template_ids := row_template_ids r;
       row_tags := row_tags r |}
  else r.

Definition Update (scan : model.Scan) : M error :=
  now <- time_Now ;;
  rej <- statement_rejected ;;
  if rej : bool then ret (Some driver_error)
  else
    _ <- modify (fun w => set_scans (map (update_row scan now) (scans w)) w) ;;
    ret None.

(** [DELETE FROM scans WHERE id = $1]; the results of the scan go with it
    ([ON DELETE CASCADE]). *)
Definition Delete (id : string) : M error :=
  rej <- statement_rejected ;;
  if rej : bool then ret (Some driver_error)
  else
    _ <- modify (fun w =>
           set_scans
             (List.filter (fun r => negb (String.eqb (row_id r) id)) (scans w)) w) ;;
    _ <- modify (fun w =>
           set_scan_results
             (List.filter (fun r => negb (String.eqb (res_scan_id r) id))
                (scan_results w)) w) ;;
    ret None.

Definition row_of_result (result : model.ScanResult) : ResultRow :=
  {| res_scan_id := model.ScanID result;
     res_template_id := model.TemplateID result;
     res_template_name := model.TemplateName result;
     res_severity := model.Severity result;
     res_matched := model.Matched result;
     res_host := model.Host result;
     res_matched_at := model.MatchedAt result;
     res_matcher_name := model.MatcherName result;
     res_extracted_results := model.ExtractedResults result;
     res_request := model.Request result;
     res_response := model.Response result |}.

Definition foreign_key_violation : string :=
  "pq: insert on scan_results violates foreign key constraint".

(** [INSERT INTO scan_results (...)]; [scan_id] references [scans(id)]. *)
Definition AddResult (result : model.ScanResult) : M error :=
  rej <- statement_rejected ;;
  if rej : bool then ret (Some driver_error)
  else
    rows <- gets scans ;;
    if existsb (fun r => String.eqb (row_id r) (model.ScanID result)) rows
    then
      _ <- modify (fun w =>
             set_scan_results (scan_results w ++ [row_of_result result]) w) ;;
      ret None
    else ret (Some foreign_key_violation).

End ScanRepository.

(** ** The nuclei library, as far as the adapter uses it *)

Module nucleiLib.

Record TemplateFilters : Type := {
  IDs : list string;
  Severity : string
}.

Record TemplateSources : Type := {
  Templates : list string
}.

(** The SDK options the adapter can hand to [NewNucleiEngineCtx]. A rate
    limit carries the context it is bound to, the number of tokens and the
    period in nanoseconds. *)
Inductive NucleiSDKOptions : Type :=
| WithTemplateFilters (f : TemplateFilters)
| WithTemplatesOrWorkflows (s : TemplateSources)
| DisableUpdateCheck
| WithGlobalRateLimitCtx (ctx : nat) (maxTokens : Z) (duration : Z)
| EnableHeadlessWithOpts.

(** The fields of [output.ResultEvent] the callback reads. *)
Record ResultEvent : Type := {
  MatcherName : string;
  TemplateID : string;
  Host : string
}.

(** What the engine does on one invocation, as the adapter observes it:
    either [NewNucleiEngineCtx] fails, or the engine is built and
    [ExecuteCallbackWithCtx] delivers events to the callback (a nil event
    is [None]) and returns [err]. [interrupted] tells whether another
    goroutine called [CancelScan] on this scan while the execution was
    blocking, before it returned. *)
Inductive Run : Type :=
| InitFails (err : string)
| Executes (events : list (option ResultEvent)) (interrupted : bool)
    (err : error).

End nucleiLib.

(** [time.Second], in nanoseconds. *)
Definition time_Second : Z := 1000000000.

(** ** package config *)

Module config.

Record Nuclei : Type := {
  TemplatesDir : string;
  Concurrency : Z;
  RateLimit : Z;
  Timeout : Z;
  Retries : Z;
  Headless : bool;
  FollowRedirects : bool
}.

End config.

(** ** package service: the nuclei adapter (nuclei_service.go) *)

Module nucleiService.

(** [CancelScan]: under the mutex, look the cancel function up; call and
    delete it when it is there. *)
Definition CancelScan (scanID : string) : M error :=
  cs <- gets cancels ;;
  match cs !! scanID with
  | Some cancel =>
      _ <- modify (fun w => set_cancelled (cancelled w ++ [cancel]) w) ;;
      _ <- modify (fun w => set_cancels (delete scanID (cancels w)) w) ;;
      ret None
  | None => ret (Some ("no running scan found with ID " +:+ scanID))
  end.

Section adapter.

Variable cfg : config.Nuclei.

(** The engine, an outside party: what it does on the [n]-th invocation
    of the adapter, given the options it is built with and the targets it
    is loaded with. *)
Variable engine :
  nat -> list nucleiLib.NucleiSDKOptions -> list string -> nucleiLib.Run.

(** "Build SDK options": three fixed options, then the rate limit and the
    headless mode when the scan asks for them. The concurrency option is
    commented out in the source; timeout and retries are not read. *)
Definition sdkOptions (scanCtx : nat) (scan : model.Scan)
  : list nucleiLib.NucleiSDKOptions :=
  let opts :=
    [ nucleiLib.WithTemplateFilters
        {| nucleiLib.IDs := model.TemplateIDs scan;
           nucleiLib.Severity := "critical,high,medium,low,info" |};
      nucleiLib.WithTemplatesOrWorkflows
        {| nucleiLib.Templates := [config.TemplatesDir cfg] |};
      nucleiLib.DisableUpdateCheck ] in
  match model.Options scan with
  | Some o =>
      let opts :=
        if (0 <? model.RateLimit o)%Z
        then opts ++ [nucleiLib.WithGlobalRateLimitCtx scanCtx
                        (model.RateLimit o) time_Second]
        else opts in
      let opts :=
        if model.Headless o
        then opts ++ [nucleiLib.EnableHeadlessWithOpts]
        else opts in
      opts
  | None => opts
  end.

(** The callback of [StartScan]: a nil event is skipped, any other is
    mapped to a [ScanResult] and appended to the slice [results]. *)
Definition callback (scan : model.Scan) (results : list model.ScanResult)
  (event : option nucleiLib.ResultEvent) : M (list model.ScanResult) :=
  match event with
  | None => ret results
  | Some ev =>
      t1 <- time_Now ;;
      t2 <- time_Now ;;
      ret (results ++ [
        {| model.result_ID := nucleiLib.MatcherName ev +:+ ":" +:+ pretty t1;
           model.ScanID := model.ID scan;
           model.TemplateID := nucleiLib.TemplateID ev;
           model.TemplateName := "";
           model.Severity := "";
           model.Matched := false;
           model.Host := nucleiLib.Host ev;
           model.MatchedAt := t2;
           model.MatcherName := "";
           model.ExtractedResults := [];
           model.Request := "";
           model.Response := "" |} ])
  end.

(** The engine delivers its events one after the other. *)
Fixpoint deliver (scan : model.Scan) (events : list (option nucleiLib.ResultEvent))
  (results : list model.ScanResult) : M (list model.ScanResult) :=
  match events with
  | [] => ret results
  | ev :: events' =>
      results' <- callback scan results ev ;;
      deliver scan events' results'
  end.

(** [context.WithCancel]: a new context, whose number stands for its
    cancel function. *)
Definition context_WithCancel : M nat :=
  fun w => (next_ctx w, set_next_ctx (S (next_ctx w)) w).

(** What the engine will do for [scan] when [StartScan] is entered in
    world [w]: the context created there is [next_ctx w]. *)
Definition run_of (scan : model.Scan) (w : World) : nucleiLib.Run :=
  engine (length (nuclei_calls w)) (sdkOptions (next_ctx w) scan)
    [model.Target scan].

Definition StartScan (scan : model.Scan) : M (list model.ScanResult * error) :=
  run <- gets (run_of scan) ;;
  _ <- modify (fun w => set_nuclei_calls (nuclei_calls w ++ [scan]) w) ;;
  (* create cancellable context and store cancel function *)
  cancel <- context_WithCancel ;;
  _ <- modify (fun w => set_cancels (<[model.ID scan := cancel]> (cancels w)) w) ;;
  (* build SDK options, initialize engine *)
  match run with
  | nucleiLib.InitFails err =>
      ret ([], Some ("initializing nuclei engine: " +:+ err))
  | nucleiLib.Executes events interrupted err =>
      (* load templates and targets, execute scan, collect results *)
      results <- deliver scan events [] ;;
      _ <- (if interrupted then _ <- CancelScan (model.ID scan) ;; ret tt
            else ret tt) ;;
      match err with
      | Some e =>
          (* remove cancel *)
          _ <- modify (fun w => set_cancels (delete (model.ID scan) (cancels w)) w) ;;
          ret ([], Some ("nuclei execution: " +:+ e))
      | None =>
          (* cleanup cancel *)
          _ <- modify (fun w => set_cancels (delete (model.ID scan) (cancels w)) w) ;;
          ret (results, None)
      end
  end.

End adapter.

End nucleiService.

(** ** package service: submission and queries (scan_service.go) *)

Module scanService.

Definition ListScans (status target templateID : option string)
  : M (list model.Scan * error) :=
  res <- ScanRepository.List status target templateID ;;
  match res.2 with
  | Some e => ret ([], Some e)
  | None => ret (res.1, None)
  end.

Definition GetScan (id : string) : M (option model.Scan * error) :=
  ScanRepository.Get id.

(** [StartScan]; [uuid] is the string [uuid.New().String()] draws. *)
Definition StartScan (uuid : string) (input : model.StartScanInput)
  : M (option model.Scan * error) :=
  t1 <- time_Now ;;
  t2 <- time_Now ;;
  let scan :=
    {| model.ID := uuid;
       model.Target := model.input_Target input;
       model.TemplateIDs := model.input_TemplateIDs input;
       model.Tags := model.input_Tags input;
       model.Options := model.input_Options input;
       model.Status := model.ScanStatusPending;
       model.Error := "";
       model.CreatedAt := t1;
       model.UpdatedAt := t2;
       model.StartedAt := None;
       model.CompletedAt := None;
       model.Results := [] |} in
  err <- ScanRepository.Create scan ;;
  match err with
  | Some e => ret (None, Some e)
  | None => ret (Some scan, None)
  end.

Definition DeleteScan (id : string) : M (bool * error) :=
  got <- ScanRepository.Get id ;;
  match got with
  | (Some scan, None) =>
      (* cancel scan if running; a failure is only logged *)
      _ <- (if String.eqb (model.Status scan) model.ScanStatusRunning
            then _ <- nucleiService.CancelScan id ;; ret tt
            else ret tt) ;;
      err <- ScanRepository.Delete id ;;
      match err with
      | Some e => ret (false, Some e)
      | None => ret (true, None)
      end
  | (_, Some e) => ret (false, Some e)
  | (None, None) => ret (false, None) (* [Get] never returns this pair *)
  end.

End scanService.

(** ** package service: the polling worker (scan_worker.go) *)

Module ScanWorker.

Section worker.

Variable cfg : config.Nuclei.
Variable engine :
  nat -> list nucleiLib.NucleiSDKOptions -> list string -> nucleiLib.Run.

(** "Store results": a result whose insert fails is logged and skipped. *)
Definition storeResults (results : list model.ScanResult) : M unit :=
  for_range results (fun result =>
    _ <- ScanRepository.AddResult result ;; ret tt).

(** The body of the loop of [processPendingScans] for one listed scan. *)
Definition processScan (scan : model.Scan) : M unit :=
  (* update scan status to running *)
  let scan := model.set_Status "running" scan in
  err <- ScanRepository.Update scan ;;
  match err with
  | Some _ => ret tt
  | None =>
      (* start scan *)
      res <- nucleiService.StartScan cfg engine scan ;;
      match res.2 with
      | Some e =>
          let scan := model.set_Status "failed" scan in
          let scan := model.set_Error e scan in
          _ <- ScanRepository.Update scan ;;
          ret tt
      | None =>
          _ <- storeResults res.1 ;;
          (* update scan status to completed *)
          let scan := model.set_Status "completed" scan in
          _ <- ScanRepository.Update scan ;;
          ret tt
      end
  end.

Definition processPendingScans : M error :=
  res <- ScanRepository.List (Some model.ScanStatusPending) None None ;;
  match res.2 with
  | Some e => ret (Some e)
  | None =>
      _ <- for_range res.1 processScan ;;
      ret None
  end.

End worker.

End ScanWorker.

(** ** Whole-system steps *)

(** The operations the outside can trigger: the requests of the API and
    the tick of the worker's timer. *)
Inductive Op : Type :=
| Submit (uuid : string) (input : model.StartScanInput)
| ListScans (status target templateID : option string)
| GetScan (id : string)
| DeleteScan (id : string)
| CancelScan (id : string)
| Tick.

Section system.

Variable cfg : config.Nuclei.
Variable engine :
  nat -> list nucleiLib.NucleiSDKOptions -> list string -> nucleiLib.Run.

Definition run_op (op : Op) (w : World) : World :=
  match op with
  | Submit uuid input => (scanService.StartScan uuid input w).2
  | ListScans status target templateID =>
      (scanService.ListScans status target templateID w).2
  | GetScan id => (scanService.GetScan id w).2
  | DeleteScan id => (scanService.DeleteScan id w).2
  | CancelScan id => (nucleiService.CancelScan id w).2
  | Tick => (ScanWorker.processPendingScans cfg engine w).2
  end.

(** The service starts on empty tables (the schema script drops and
    recreates them) with an empty registry; clock and fault schedule are
    arbitrary. *)
Definition initial (w : World) : Prop :=
  scans w = [] /\ scan_results w = [] /\ cancels w = ∅.

Inductive reachable : World -> Prop :=
| reachable_initial (w : World) : initial w -> reachable w
| reachable_step (w : World) (op : Op) :
    reachable w -> reachable (run_op op w).

End system.

(** ** Predicates used by the statements *)

(** The columns of a scan row that no status transition should touch:
    everything but [status] and [updated_at]. *)
Definition frame (r : ScanRow) :=
  (row_id r, row_target r, row_options r, row_template_ids r, row_tags r,
   row_created_at r, row_started_at r, row_completed_at r, row_error r).

(** The primary key of [scans]. *)
Definition pk_unique (w : World) : Prop := NoDup (map row_id (scans w)).

(** What [List] and [Get] put in the fields they do not read. *)
Definition default_options : model.ScanOptions :=
  {| model.Concurrency := 10; model.RateLimit := 100; model.Timeout := 30;
     model.Retries := 3; model.Headless := false |}.

Definition has_defaults (s : model.Scan) : Prop :=
  model.TemplateIDs s = [] /\ model.Tags s = [] /\
  model.Options s = Some default_options.

(** A scan with other values for the three tunables the adapter does not
    read. *)
Definition with_tunables (c t r : Z) (s : model.Scan) : model.Scan :=
  {| model.ID := model.ID s; model.Target := model.Target s;
     model.Status := model.Status s;
     model.TemplateIDs := model.TemplateIDs s; model.Tags := model.Tags s;
     model.Options :=
       match model.Options s with
       | Some o => Some {| model.Concurrency := c;
                           model.RateLimit := model.RateLimit o;
                           model.Timeout := t;
                           model.Retries := r;
                           model.Headless := model.Headless o |}
       | None => None
       end;
     model.Error := model.Error s; model.CreatedAt := model.CreatedAt s;
     model.UpdatedAt := model.UpdatedAt s;
     model.StartedAt := model.StartedAt s;
     model.CompletedAt := model.CompletedAt s;
     model.Results := model.Results s |}.

(** The rate limit the specification documents for a scan: the option's
    value, or 100 requests per second when it is missing or zero. *)
Definition documented_rate_limit (s : model.Scan) : Z :=
  match model.Options s with
  | Some o => if (model.RateLimit o =? 0)%Z then 100%Z else model.RateLimit o
  | None => 100%Z
  end.

(** ** Concrete inputs for the examples *)

Definition cfg0 : config.Nuclei :=
  {| config.TemplatesDir := "./templates"; config.Concurrency := 10;
     config.RateLimit := 100; config.Timeout := 30; config.Retries := 3;
     config.Headless := false; config.FollowRedirects := true |}.

Definition w_empty : World :=
  {| scans := []; scan_results := []; cancels := ∅; cancelled := [];
     next_ctx := 0; clock := 0; faults := []; nuclei_calls := [] |}.

Definition input_x : model.StartScanInput :=
  {| model.input_Target := "http://x"; model.input_TemplateIDs := ["t1"];
     model.input_Tags := [];
     model.input_Options :=
       Some {| model.Concurrency := 5; model.RateLimit := 0;
               model.Timeout := 0; model.Retries := 0;
               model.Headless := false |} |}.

Definition input_empty_target : model.StartScanInput :=
  {| model.input_Target := ""; model.input_TemplateIDs := ["t1"];
     model.input_Tags := []; model.input_Options := None |}.

(** One pending job, submitted on the empty store. *)
Definition w_one : World := (scanService.StartScan "u1" input_x w_empty).2.

Definition scan_u1 : model.Scan :=
  {| model.ID := "u1"; model.Target := "http://x";
     model.Status := "running"; model.TemplateIDs := []; model.Tags := [];
     model.Options := Some default_options; model.Error := "";
     model.CreatedAt := 2; model.UpdatedAt := 2; model.StartedAt := None;
     model.CompletedAt := None; model.Results := [] |}.

Definition event_a : nucleiLib.ResultEvent :=
  {| nucleiLib.MatcherName := "m"; nucleiLib.TemplateID := "t1";
     nucleiLib.Host := "http://x" |}.

Definition event_b : nucleiLib.ResultEvent :=
  {| nucleiLib.MatcherName := "n"; nucleiLib.TemplateID := "t2";
     nucleiLib.Host := "http://x" |}.

(** Engines that behave the same on every invocation. *)
Definition engine_init_fails
  (n : nat) (opts : list nucleiLib.NucleiSDKOptions) (targets : list string)
  : nucleiLib.Run :=
  nucleiLib.InitFails "no templates provided".

Definition engine_emits_then_fails
  (n : nat) (opts : list nucleiLib.NucleiSDKOptions) (targets : list string)
  : nucleiLib.Run :=
  nucleiLib.Executes [Some event_a; Some event_b] false (Some "connection reset").

Definition engine_cancelled
  (n : nat) (opts : list nucleiLib.NucleiSDKOptions) (targets : list string)
  : nucleiLib.Run :=
  nucleiLib.Executes [Some event_a] true (Some "context canceled").

Definition engine_succeeds
  (n : nat) (opts : list nucleiLib.NucleiSDKOptions) (targets : list string)
  : nucleiLib.Run :=
  nucleiLib.Executes [Some event_a; None; Some event_b] false None.

(** ** Notions used by the properties *)

(** The key under which an emitted event is recognised in a stored row. *)
Definition event_key (scan : model.Scan) (ev : nucleiLib.ResultEvent)
  : string * string * string :=
  (model.ID scan, nucleiLib.TemplateID ev, nucleiLib.Host ev).

Definition result_key (r : model.ScanResult) : string * string * string :=
  (model.ScanID r, model.TemplateID r, model.Host r).

Definition row_key (r : ResultRow) : string * string * string :=
  (res_scan_id r, res_template_id r, res_host r).

(** The events that are not nil, in order. *)
Definition emitted (events : list (option nucleiLib.ResultEvent))
  : list nucleiLib.ResultEvent :=
  omap id events.

(** The world in which the engine is built: the call is on the trace and
    the cancel function of the new context is registered. *)
Definition registered (scan : model.Scan) (w : World) : World :=
  set_cancels (<[model.ID scan := next_ctx w]> (cancels w))
    (set_next_ctx (S (next_ctx w))
       (set_nuclei_calls (nuclei_calls w ++ [scan]) w)).

(** C5, as the specification states it, for the rate limit: the options
    built for a scan bound the engine to the scan's rate limit, or to the
    documented default when the value is missing or zero. *)
Definition applies_documented_rate_limit (cfg : config.Nuclei) (ctx : nat)
  (scan : model.Scan) : Prop :=
  In (nucleiLib.WithGlobalRateLimitCtx ctx (documented_rate_limit scan)
        time_Second)
     (nucleiService.sdkOptions cfg ctx scan).

Definition scan_zero_rate : model.Scan :=
  {| model.ID := "u1"; model.Target := "http://x";
     model.Status := "running"; model.TemplateIDs := ["t1"]; model.Tags := [];
     model.Options :=
       Some {| model.Concurrency := 5; model.RateLimit := 0;
               model.Timeout := 0; model.Retries := 0;
               model.Headless := false |};
     model.Error := ""; model.CreatedAt := 2; model.UpdatedAt := 2;
     model.StartedAt := None; model.CompletedAt := None;
     model.Results := [] |}.

(** Whether the next statement is rejected, and the world once it has
    been sent. *)
Definition rejected (w : World) : bool := (ScanRepository.statement_rejected w).1.
Definition sent (w : World) : World := (ScanRepository.statement_rejected w).2.

(** The rows a [List] call selects when its statement is accepted. *)
Definition selected (status target : option string) (w : World) : list ScanRow :=
  List.filter
    (fun r => forallb (ScanRepository.holds
                         (ScanRepository.list_query status target None).2 r)
                (ScanRepository.list_query status target None).1)
    (scans w).

(** The filters as the specification describes them: a job passes when it
    has the status and the target asked for, and the template asked for is
    among its selectors. *)
Definition matches (status target templateID : option string) (r : ScanRow)
  : bool :=
  match status with Some s => String.eqb (row_status r) s | None => true end
  && match target with Some t => String.eqb (row_target r) t | None => true end
  && match templateID with
     | Some t => existsb (String.eqb t) (row_template_ids r)
     | None => true
     end.

(** C6 as the specification states it. *)
Definition list_is_conjunctive (status target templateID : option string)
  (w : World) : Prop :=
  (ScanRepository.List status target templateID w).1 =
  (map ScanRepository.scan_of_row
     (List.filter (matches status target templateID) (scans w)), None).

(** The row [Create] inserts for a scan at instant [now]. *)
Definition created_row (scan : model.Scan) (now : Z) : ScanRow :=
  {| row_id := model.ID scan;
     row_target := model.Target scan;
     row_status := model.Status scan;
     row_created_at := now;
     row_updated_at := now;
     row_started_at := None;
     row_completed_at := None;
     row_error := None;
     row_options := None;
     row_template_ids := model.TemplateIDs scan;
     row_tags := model.Tags scan |}.

(** The scan [scanService.StartScan] builds when entered at instant [t]. *)
Definition submitted_scan (uuid : string) (input : model.StartScanInput)
  (t : Z) : model.Scan :=
  {| model.ID := uuid;
     model.Target := model.input_Target input;
     model.Status := model.ScanStatusPending;
     model.TemplateIDs := model.input_TemplateIDs input;
     model.Tags := model.input_Tags input;
     model.Options := model.input_Options input;
     model.Error := "";
     model.CreatedAt := t;
     model.UpdatedAt := (t + 1)%Z;
     model.StartedAt := None;
     model.CompletedAt := None;
     model.Results := [] |}.

(** C3, first half, as the specification states it: an empty target is
    refused with an error and the store is left as it was. *)
Definition rejects_empty_target (uuid : string) (input : model.StartScanInput)
  (w : World) : Prop :=
  model.input_Target input = "" ->
  (scanService.StartScan uuid input w).1.2 <> None /\
  scans (scanService.StartScan uuid input w).2 = scans w.

(** A row after an [UPDATE] of the worker: target, status and
    [updated_at] are set, the other columns are kept. *)
Definition touch (target status : string) (now : Z) (r : ScanRow) : ScanRow :=
  {| row_id := row_id r;
     row_target := target;
     row_status := status;
     row_created_at := row_created_at r;
     row_updated_at := now;
     row_started_at := row_started_at r;
     row_completed_at := row_completed_at r;
     row_error := row_error r;
     row_options := row_options r;
     row_template_ids := row_template_ids r;
     row_tags := row_tags r |}.

(** The statuses the worker writes. *)
Definition worker_statuses : list string := ["running"; "failed"; "completed"].

(** [r'] is [r], or [r] after updates made for one of the scans in [S]. *)
Definition row_written (S : list model.Scan) (r r' : ScanRow) : Prop :=
  r' = r \/
  exists scan st now,
    In scan S /\ row_id r = model.ID scan /\ In st worker_statuses /\
    r' = touch (model.Target scan) st now r.

Definition written (S : list model.Scan) (rows rows' : list ScanRow) : Prop :=
  Forall2 (row_written S) rows rows'.

(** The scans a tick lists: the pending rows, as [List] returns them. *)
Definition pending (w : World) : list model.Scan :=
  map ScanRepository.scan_of_row (selected (Some model.ScanStatusPending) None w).

(** Scans listed from the rows agree with the rows on the target when
    ids are unique. *)
Definition agrees (S : list model.Scan) (rows : list ScanRow) : Prop :=
  forall s r, In s S -> In r rows -> row_id r = model.ID s ->
              row_target r = model.Target s.

(** How each operation changes the table of scans: it keeps the frames of
    the rows, or appends one row with a new id, or removes rows. *)
Inductive scans_step (rows : list ScanRow) : list ScanRow -> Prop :=
| step_same (rows' : list ScanRow) :
    map frame rows' = map frame rows -> scans_step rows rows'
| step_insert (r : ScanRow) :
    ~ In (row_id r) (map row_id rows) ->
    row_started_at r = None -> row_completed_at r = None ->
    scans_step rows (rows ++ [r])
| step_delete (keep : ScanRow -> bool) :
    scans_step rows (List.filter keep rows).

(** No row has a start or a completion time. *)
Definition timestamps_null (rows : list ScanRow) : Prop :=
  Forall (fun r => row_started_at r = None /\ row_completed_at r = None) rows.

(** The store after the job [u1] was submitted and a tick ran it with an
    engine that succeeds. *)
Definition w_done : World := run_op cfg0 engine_succeeds Tick w_one.

(** C4 as the specification states it. *)
Definition timestamps_follow_status (w : World) : Prop :=
  Forall (fun r =>
            (row_started_at r = None <-> row_status r = "pending") /\
            (row_completed_at r <> None <->
             In (row_status r) ["completed"; "failed"; "cancelled"]))
         (scans w).

(** The row of job [u1] after its submission, and after the tick that
    completes it. *)
Definition row_u1 : ScanRow :=
  {| row_id := "u1"; row_target := "http://x"; row_status := "pending";
     row_created_at := 2; row_updated_at := 2; row_started_at := None;
     row_completed_at := None; row_error := None; row_options := None;
     row_template_ids := ["t1"]; row_tags := [] |}.

Definition row_u1_done : ScanRow :=
  {| row_id := "u1"; row_target := "http://x"; row_status := "completed";
     row_created_at := 2; row_updated_at := 8; row_started_at := None;
     row_completed_at := None; row_error := None; row_options := None;
     row_template_ids := ["t1"]; row_tags := [] |}.

(** The engine's run ends in an error. *)
Definition engine_fails (run : nucleiLib.Run) : Prop :=
  match run with
  | nucleiLib.InitFails _ => True
  | nucleiLib.Executes _ _ (Some _) => True
  | nucleiLib.Executes _ _ None => False
  end.

(** C1 as the specification states it: when the engine fails after having
    emitted events, each of them has its row in the results table once
    the job has been processed. *)
Definition keeps_results_emitted_before_failure (cfg : config.Nuclei)
  (engine : nat -> list nucleiLib.NucleiSDKOptions -> list string -> nucleiLib.Run)
  (scan : model.Scan) (w : World) : Prop :=
  forall events interrupted e ev,
    nucleiService.run_of cfg engine (model.set_Status "running" scan) w =
      nucleiLib.Executes events interrupted (Some e) ->
    In ev (emitted events) ->
    In (event_key scan ev)
       (map row_key (scan_results (ScanWorker.processScan cfg engine scan w).2)).

(** C2 as the specification states it: when the run of a job is
    interrupted by a cancellation, the job's rows end with
    Status=Cancelled. *)
Definition cancelled_run_ends_cancelled (cfg : config.Nuclei)
  (engine : nat -> list nucleiLib.NucleiSDKOptions -> list string -> nucleiLib.Run)
  (scan : model.Scan) (w : World) : Prop :=
  forall events err,
    nucleiService.run_of cfg engine (model.set_Status "running" scan) w =
      nucleiLib.Executes events true err ->
    Forall (fun r => row_id r = model.ID scan ->
                     row_status r = model.ScanStatusCancelled)
      (scans (ScanWorker.processScan cfg engine scan w).2).

(** The five statuses of package [model]. *)
Definition statuses : list model.ScanStatus :=
  [model.ScanStatusPending; model.ScanStatusRunning; model.ScanStatusCompleted;
   model.ScanStatusFailed; model.ScanStatusCancelled].

(** The first row of the table with a given id, as [WHERE id = $1] on a
    single-row query finds it. *)
Definition first_row (id : string) (w : World) : option ScanRow :=
  List.find (fun r => String.eqb (row_id r) id) (scans w).

(** The statuses in which the worker leaves a job it has run. *)
Definition final_statuses : list string := ["failed"; "completed"].

(** Whether a row belongs to one of the scans of a list. *)
Definition listed (S : list model.Scan) (r : ScanRow) : bool :=
  existsb (fun s => String.eqb (row_id r) (model.ID s)) S.

(** No row stores a failure reason or options. *)
Definition error_and_options_null (rows : list ScanRow) : Prop :=
  Forall (fun r => row_error r = None /\ row_options r = None) rows.

(** A scan with caller-chosen selectors and options, under an id that
    the store [w_one] does not hold. *)
Definition scan_zero_rate_u2 : model.Scan :=
  {| model.ID := "u2"; model.Target := "http://y";
     model.Status := "pending"; model.TemplateIDs := ["t1"];
     model.Tags := ["cve"];
     model.Options :=
       Some {| model.Concurrency := 5; model.RateLimit := 0;
               model.Timeout := 0; model.Retries := 0;
               model.Headless := true |};
     model.Error := ""; model.CreatedAt := 0; model.UpdatedAt := 0;
     model.StartedAt := None; model.CompletedAt := None;
     model.Results := [] |}.

(** The store [w_one] when the next statement will be rejected. *)
Definition w_one_faulty : World := set_faults [true] w_one.

(** [r'] is the row [r] after the scans of [S] have been run with no
    rejected statement: a row of one of these scans has a final status,
    any other row is untouched. *)
Definition settled (S : list model.Scan) (r r' : ScanRow) : Prop :=
  row_id r' = row_id r /\
  if listed S r then In (row_status r') final_statuses else r' = r.

(** * Properties *)

(** ** The registry of cancel functions *)

Ltac run_m :=
  unfold bind, ret, gets, modify, time_Now, ScanRepository.statement_rejected,
    nucleiService.context_WithCancel; simpl.

Lemma CancelScan_present (id : string) (w : World) (c : nat) :
  cancels w !! id = Some c ->
  nucleiService.CancelScan id w =
    (None, set_cancels (delete id (cancels w))
             (set_cancelled (cancelled w ++ [c]) w)).
Proof.
  intros H. unfold nucleiService.CancelScan. run_m. now rewrite H.
Qed.

Lemma CancelScan_absent (id : string) (w : World) :
  cancels w !! id = None ->
  nucleiService.CancelScan id w =
    (Some ("no running scan found with ID " +:+ id), w).
Proof.
  intros H. unfold nucleiService.CancelScan. run_m. now rewrite H.
Qed.

(** C9. [CancelScan] on an id whose cancel function is registered calls that
    function, removes it and returns no error; on an id without one it
    returns the error "no running scan found with ID <id>" and changes
    nothing. Hence, of two calls in a row on a registered id, the first
    succeeds and the second reports that no running scan was found. *)
Theorem CancelScan_invokes_once (id : string) (w : World) :
  let first := nucleiService.CancelScan id w in
  let second := nucleiService.CancelScan id first.2 in
  match cancels w !! id with
  | Some c =>
      first.1 = None /\
      cancels first.2 !! id = None /\
      cancelled first.2 = cancelled w ++ [c] /\
      second.1 = Some ("no running scan found with ID " +:+ id) /\
      second.2 = first.2
  | None =>
      first.1 = Some ("no running scan found with ID " +:+ id) /\
      first.2 = w
  end.
Proof.
  simpl. destruct (cancels w !! id) as [c|] eqn:Hc.
  - rewrite (CancelScan_present id w c Hc). simpl.
    assert (Hgone : delete id (cancels w) !! id = None)
      by apply lookup_delete_eq.
    rewrite CancelScan_absent by exact Hgone. simpl. auto.
  - rewrite (CancelScan_absent id w Hc). simpl. auto.
Qed.

(** ** The adapter *)

Lemma deliver_clock_only (scan : model.Scan)
  (events : list (option nucleiLib.ResultEvent)) :
  forall (results : list model.ScanResult) (w : World),
    exists t, (nucleiService.deliver scan events results w).2 = set_clock t w.
Proof.
  induction events as [|ev events IH]; intros results w; simpl.
  - exists (clock w). now destruct w.
  - unfold bind. destruct ev as [ev|]; simpl.
    + match goal with
      | |- context [nucleiService.deliver scan events ?rs ?w1] =>
          destruct (IH rs w1) as [t Ht]
      end.
      exists t. rewrite Ht. reflexivity.
    + apply IH.
Qed.

Lemma deliver_results (scan : model.Scan)
  (events : list (option nucleiLib.ResultEvent)) :
  forall (results : list model.ScanResult) (w : World),
    map result_key (nucleiService.deliver scan events results w).1 =
    map result_key results ++ map (event_key scan) (emitted events).
Proof.
  induction events as [|ev events IH]; intros results w; simpl.
  - now rewrite app_nil_r.
  - unfold bind. destruct ev as [ev|]; simpl.
    + rewrite IH. rewrite map_app. simpl. now rewrite <- app_assoc.
    + apply IH.
Qed.

Lemma deliver_scan_ids (scan : model.Scan)
  (events : list (option nucleiLib.ResultEvent)) :
  forall (results : list model.ScanResult) (w : World),
    Forall (fun r => model.ScanID r = model.ID scan) results ->
    Forall (fun r => model.ScanID r = model.ID scan)
      (nucleiService.deliver scan events results w).1.
Proof.
  induction events as [|ev events IH]; intros results w Hrs; simpl.
  - exact Hrs.
  - unfold bind. destruct ev as [ev|]; simpl.
    + apply IH. apply Forall_app. split; [exact Hrs|].
      constructor; [reflexivity | constructor].
    + now apply IH.
Qed.

Lemma StartScan_init_fails (cfg : config.Nuclei)
  (engine : nat -> list nucleiLib.NucleiSDKOptions -> list string -> nucleiLib.Run)
  (scan : model.Scan) (w : World) (err : string) :
  nucleiService.run_of cfg engine scan w = nucleiLib.InitFails err ->
  nucleiService.StartScan cfg engine scan w =
    (([], Some ("initializing nuclei engine: " +:+ err)), registered scan w).
Proof.
  intros H. unfold nucleiService.StartScan. run_m. now rewrite H.
Qed.

(** The registry once an execution has returned: the entry of the scan is
    gone, whether the run was interrupted or not. *)
Lemma StartScan_executes (cfg : config.Nuclei)
  (engine : nat -> list nucleiLib.NucleiSDKOptions -> list string -> nucleiLib.Run)
  (scan : model.Scan) (w : World)
  (events : list (option nucleiLib.ResultEvent)) (interrupted : bool)
  (err : error) :
  nucleiService.run_of cfg engine scan w =
    nucleiLib.Executes events interrupted err ->
  exists (results : list model.ScanResult) (t : Z),
    map result_key results = map (event_key scan) (emitted events) /\
    Forall (fun r => model.ScanID r = model.ID scan) results /\
    nucleiService.StartScan cfg engine scan w =
      (match err with
       | Some e => ([], Some ("nuclei execution: " +:+ e))
       | None => (results, None)
       end,
       set_cancels (delete (model.ID scan) (cancels w))
         (set_cancelled
            (if interrupted then cancelled w ++ [next_ctx w] else cancelled w)
            (set_clock t (registered scan w)))).
Proof.
  intros H. unfold nucleiService.StartScan. run_m. rewrite H.
  fold (registered scan w).
  destruct (deliver_clock_only scan events [] (registered scan w)) as [t Ht].
  pose proof (deliver_results scan events [] (registered scan w)) as Hk.
  pose proof (deliver_scan_ids scan events [] (registered scan w)
                (List.Forall_nil _)) as Hid.
  destruct (nucleiService.deliver scan events [] (registered scan w))
    as [results w1] eqn:Hd.
  simpl in Ht, Hk, Hid. subst w1.
  exists results, t. split; [exact Hk|]. split; [exact Hid|].
  destruct interrupted.
  - unfold nucleiService.CancelScan. run_m.
    rewrite lookup_insert_eq. simpl.
    destruct err; simpl; rewrite delete_delete_eq, delete_insert_eq;
      reflexivity.
  - simpl. destruct err; simpl; rewrite delete_insert_eq; reflexivity.
Qed.

Lemma StartScan_init_failure_leaks (cfg : config.Nuclei)
  (engine : nat -> list nucleiLib.NucleiSDKOptions -> list string -> nucleiLib.Run)
  (scan : model.Scan) (w : World) (err : string) :
  nucleiService.run_of cfg engine scan w = nucleiLib.InitFails err ->
  cancels (nucleiService.StartScan cfg engine scan w).2 !! model.ID scan =
    Some (next_ctx w).
Proof.
  intros H. rewrite (StartScan_init_fails _ _ _ _ _ H). simpl.
  apply lookup_insert_eq.
Qed.

Lemma StartScan_execution_releases (cfg : config.Nuclei)
  (engine : nat -> list nucleiLib.NucleiSDKOptions -> list string -> nucleiLib.Run)
  (scan : model.Scan) (w : World)
  (events : list (option nucleiLib.ResultEvent)) (interrupted : bool)
  (err : error) :
  nucleiService.run_of cfg engine scan w =
    nucleiLib.Executes events interrupted err ->
  cancels (nucleiService.StartScan cfg engine scan w).2 !! model.ID scan = None.
Proof.
  intros H.
  destruct (StartScan_executes _ _ _ _ _ _ _ H) as (rs & t & _ & _ & ->).
  simpl. apply lookup_delete_eq.
Qed.

(** C7. The cancel function registered by [StartScan] should be gone from
    the registry when the call returns, on every path. It is not when the
    engine cannot be initialised: for the job [u1], with an engine whose
    construction fails, [StartScan] returns the initialisation error and
    the registry, which had no entry for [u1] before the call, still maps
    [u1] to the cancel function of context 0 afterwards. *)
Theorem StartScan_init_failure_keeps_handle :
  let r := nucleiService.StartScan cfg0 engine_init_fails scan_u1 w_one in
  r.1 = ([], Some "initializing nuclei engine: no templates provided") /\
  cancels w_one !! "u1" = None /\
  cancels r.2 !! "u1" = Some 0.
Proof.
  simpl. split; [reflexivity|]. split; [reflexivity|].
  apply (StartScan_init_failure_leaks cfg0 engine_init_fails scan_u1 w_one
           "no templates provided"). reflexivity.
Qed.

(** ** Options handed to the engine *)

(** C5 fails: for a scan whose rate limit is zero the adapter builds no
    rate-limit option at all, so the documented default of 100 is not
    applied; and two scans that differ only in their concurrency get the
    same options. *)
Lemma adapter_applies_no_default :
  ~ applies_documented_rate_limit cfg0 0 scan_zero_rate /\
  nucleiService.sdkOptions cfg0 0 (with_tunables 5 30 3 scan_u1) =
  nucleiService.sdkOptions cfg0 0 (with_tunables 7 30 3 scan_u1).
Proof.
  split; [|reflexivity].
  unfold applies_documented_rate_limit. simpl.
  intros [H|[H|[H|[]]]]; discriminate H.
Qed.

(** C5, amended. The adapter translates two options only. The options it
    builds contain a rate limit exactly when the scan has options with a
    positive rate limit, and then that value per second on the context of
    the run; they enable headless mode exactly when the scan's headless
    flag is set; concurrency, timeout and retries have no effect on them;
    no default is applied for a missing or zero value. *)
Theorem sdkOptions_reads_rate_limit_and_headless (cfg : config.Nuclei)
  (ctx : nat) (scan : model.Scan) :
  (forall c n d,
     In (nucleiLib.WithGlobalRateLimitCtx c n d)
        (nucleiService.sdkOptions cfg ctx scan) <->
     exists o, model.Options scan = Some o /\ (0 < model.RateLimit o)%Z /\
               c = ctx /\ n = model.RateLimit o /\ d = time_Second) /\
  (In nucleiLib.EnableHeadlessWithOpts (nucleiService.sdkOptions cfg ctx scan) <->
   exists o, model.Options scan = Some o /\ model.Headless o = true) /\
  (forall c t r,
     nucleiService.sdkOptions cfg ctx (with_tunables c t r scan) =
     nucleiService.sdkOptions cfg ctx scan).
Proof.
  unfold nucleiService.sdkOptions.
  destruct scan as [id tg st tids tags [o|] er ca ua sa co rs]; simpl.
  - destruct o as [cc rl tm rt hd]; simpl.
    destruct (Z.ltb_spec 0 rl) as [Hrl|Hrl]; destruct hd; simpl;
      (split; [intros c n d; split;
                 [ intros H; repeat (destruct H as [H|H]; try discriminate H);
                   try contradiction;
                   try (injection H as <- <- <-; eexists; simpl; eauto 10)
                 | intros (o & Ho & Hpos & -> & -> & ->);
                   injection Ho as <-; simpl in *; try lia; auto 10 ]
              | split; [split; [ intros H;
                   repeat (destruct H as [H|H]; try discriminate H);
                   try contradiction; eexists; simpl; eauto
                 | intros (o & Ho & Hh); injection Ho as <-; simpl in *;
                   try discriminate; auto 10 ]
              | reflexivity ]]).
  - split; [|split; [|reflexivity]].
    + intros c n d; split.
      * intros H; repeat (destruct H as [H|H]; try discriminate H); contradiction.
      * intros (o & Ho & _); discriminate.
    + split.
      * intros H; repeat (destruct H as [H|H]; try discriminate H); contradiction.
      * intros (o & Ho & _); discriminate.
Qed.

(** ** The scan repository *)

Lemma sent_frame (w : World) :
  scans (sent w) = scans w /\ scan_results (sent w) = scan_results w /\
  cancels (sent w) = cancels w /\ cancelled (sent w) = cancelled w /\
  next_ctx (sent w) = next_ctx w /\ clock (sent w) = clock w /\
  nuclei_calls (sent w) = nuclei_calls w /\ faults (sent w) = tail (faults w).
Proof.
  unfold sent, ScanRepository.statement_rejected.
  destruct (faults w) as [|b fs] eqn:Hf; simpl; rewrite ?Hf; auto 10.
Qed.

Lemma no_faults_sent (w : World) : faults w = [] -> rejected w = false /\ sent w = w.
Proof.
  intros H. unfold rejected, sent, ScanRepository.statement_rejected.
  now rewrite H.
Qed.

Lemma List_eq (status target templateID : option string) (w : World) :
  ScanRepository.List status target templateID w =
  (if rejected w then ([], Some ScanRepository.driver_error)
   else if ScanRepository.params_ok
             (ScanRepository.list_query status target None).1
             (ScanRepository.list_query status target None).2
        then (map ScanRepository.scan_of_row (selected status target w), None)
        else ([], Some ScanRepository.params_error),
   sent w).
Proof.
  unfold ScanRepository.List, ScanRepository.QueryContext, rejected, sent,
    selected.
  unfold bind at 1 2.
  change (ScanRepository.list_query status target templateID)
    with (ScanRepository.list_query status target None).
  destruct (ScanRepository.statement_rejected w) as [[] w1] eqn:Hs; simpl.
  - reflexivity.
  - assert (Hsc : scans w1 = scans w).
    { pose proof (sent_frame w) as Hf. unfold sent in Hf. rewrite Hs in Hf.
      apply Hf. }
    destruct (ScanRepository.params_ok _ _); run_m; now rewrite ?Hsc.
Qed.

(** C6 fails for the template filter: on the store holding the one job
    [u1], whose selector is [t1], listing with the template filter [t2]
    returns that job. *)
Lemma List_ignores_template_filter :
  ~ list_is_conjunctive None None (Some "t2") w_one /\
  map model.ID (ScanRepository.List None None (Some "t2") w_one).1.1 = ["u1"] /\
  map row_template_ids (scans w_one) = [["t1"]].
Proof.
  split; [|split; reflexivity].
  unfold list_is_conjunctive. intros H. discriminate H.
Qed.

(** C6, amended. The status and target filters are conjunctive and the
    template filter is ignored: when the statement is accepted, and unless
    a target filter comes without a status filter, [List] returns exactly
    the jobs, in table order, that have the status asked for (if any) and
    the target asked for (if any), whatever the template filter. *)
Theorem List_filters_status_and_target
  (status target templateID : option string) (w : World) :
  rejected w = false ->
  is_Some status \/ target = None ->
  (ScanRepository.List status target templateID w).1 =
  (map ScanRepository.scan_of_row
     (List.filter (matches status target None) (scans w)), None).
Proof.
  intros Hrej Hshape. rewrite List_eq, Hrej. simpl.
  assert (Hsame : forall r,
            forallb (ScanRepository.holds
                       (ScanRepository.list_query status target None).2 r)
              (ScanRepository.list_query status target None).1 =
            matches status target None r).
  { intros r. unfold matches.
    destruct status as [s|], target as [t|]; simpl;
      unfold ScanRepository.arg_eqb; simpl;
      rewrite ?andb_true_r; try reflexivity.
    destruct Hshape as [[x Hx]|Hx]; discriminate. }
  unfold selected. rewrite (filter_ext _ _ Hsame).
  destruct status as [s|], target as [t|]; simpl; try reflexivity.
  destruct Hshape as [[x Hx]|Hx]; discriminate.
Qed.

Lemma List_filters_status_and_target_witness :
  rejected w_one = false /\
  (is_Some (Some "pending") \/ Some "http://x" = None) /\
  (ScanRepository.List (Some "pending") (Some "http://x") (Some "t2") w_one).1 =
  (map ScanRepository.scan_of_row
     (List.filter (matches (Some "pending") (Some "http://x") None)
        (scans w_one)), None).
Proof.
  split; [reflexivity|]. split; [left; eexists; reflexivity|].
  apply (List_filters_status_and_target (Some "pending") (Some "http://x")
           (Some "t2") w_one).
  - reflexivity.
  - left. eexists. reflexivity.
Defined.

(** With a target filter and no status filter the statement refers to
    [$2] while one argument is bound: the call returns an error. *)
Lemma List_target_only_is_an_error (t : string) (templateID : option string)
  (w : World) :
  exists e, (ScanRepository.List None (Some t) templateID w).1 = ([], Some e).
Proof.
  rewrite List_eq. simpl. destruct (rejected w); eexists; reflexivity.
Qed.

(** C10, first part: the scans [List] and [Get] return. *)
Lemma scan_of_row_has_defaults (r : ScanRow) :
  has_defaults (ScanRepository.scan_of_row r).
Proof. repeat split. Qed.

Lemma List_has_defaults (status target templateID : option string) (w : World) :
  Forall has_defaults (ScanRepository.List status target templateID w).1.1.
Proof.
  rewrite List_eq. simpl.
  destruct (rejected w); simpl; [constructor|].
  destruct (ScanRepository.params_ok _ _); simpl; [|constructor].
  apply List.Forall_forall. intros s Hs. apply in_map_iff in Hs.
  destruct Hs as (r & <- & _). apply scan_of_row_has_defaults.
Qed.

Lemma Get_eq (id : string) (w : World) :
  ScanRepository.Get id w =
  (if rejected w then (None, Some ScanRepository.driver_error)
   else match List.find (fun r => String.eqb (row_id r) id) (scans w) with
        | None => (None, Some ScanRepository.ErrNotFound)
        | Some r => (Some (ScanRepository.scan_of_row r), None)
        end,
   sent w).
Proof.
  unfold ScanRepository.Get, rejected, sent. unfold bind at 1.
  destruct (ScanRepository.statement_rejected w) as [[] w1] eqn:Hs; simpl.
  - reflexivity.
  - assert (Hsc : scans w1 = scans w).
    { pose proof (sent_frame w) as Hf. unfold sent in Hf. rewrite Hs in Hf.
      apply Hf. }
    run_m. rewrite Hsc. now destruct (find _ _).
Qed.

Lemma rejected_set_clock (t : Z) (w : World) : rejected (set_clock t w) = rejected w.
Proof.
  unfold rejected, ScanRepository.statement_rejected. simpl.
  now destruct (faults w).
Qed.

Lemma has_id_false (id : string) (rows : list ScanRow) :
  ~ In id (map row_id rows) ->
  existsb (fun r => String.eqb (row_id r) id) rows = false.
Proof.
  induction rows as [|r rows IH]; simpl; intros H; [reflexivity|].
  apply orb_false_intro.
  - apply String.eqb_neq. intros E. apply H. now left.
  - apply IH. intros Hin. apply H. now right.
Qed.

Lemma has_id_true (id : string) (rows : list ScanRow) :
  In id (map row_id rows) ->
  existsb (fun r => String.eqb (row_id r) id) rows = true.
Proof.
  intros H. apply in_map_iff in H. destruct H as (r & Hr & Hin).
  apply existsb_exists. exists r. split; [exact Hin|].
  now apply String.eqb_eq.
Qed.

Lemma Create_eq (scan : model.Scan) (w : World) :
  ScanRepository.Create scan w =
  let w1 := sent (set_clock (clock w + 1) w) in
  if rejected w then (Some ScanRepository.driver_error, w1)
  else if existsb (fun r => String.eqb (row_id r) (model.ID scan)) (scans w)
       then (Some ScanRepository.unique_violation, w1)
       else (None, set_scans (scans w ++ [created_row scan (clock w)]) w1).
Proof.
  unfold ScanRepository.Create. unfold bind at 1 2. unfold time_Now at 1.
  rewrite <- (rejected_set_clock (clock w + 1) w).
  unfold rejected, sent.
  pose proof (sent_frame (set_clock (clock w + 1) w)) as Hf. unfold sent in Hf.
  destruct (ScanRepository.statement_rejected (set_clock (clock w + 1) w))
    as [[] w1] eqn:Hs; simpl in *.
  - reflexivity.
  - destruct Hf as (Hsc & _). run_m. rewrite Hsc.
    now destruct (existsb _ _).
Qed.

Lemma submit_eq (uuid : string) (input : model.StartScanInput) (w : World) :
  scanService.StartScan uuid input w =
  let scan := submitted_scan uuid input (clock w) in
  let r := ScanRepository.Create scan (set_clock (clock w + 1 + 1) w) in
  (match r.1 with
   | Some e => (None, Some e)
   | None => (Some scan, None)
   end, r.2).
Proof.
  unfold scanService.StartScan. run_m. fold (submitted_scan uuid input (clock w)).
  change (set_clock (clock w + 1 + 1) (set_clock (clock w + 1) w))
    with (set_clock (clock w + 1 + 1) w).
  now destruct (ScanRepository.Create _ _) as [[e|] w'].
Qed.

(** ** Submission *)

(** C3 fails: submitting the empty target on the empty store returns no
    error and leaves a pending job with an empty target in the store. *)
Lemma StartScan_accepts_empty_target :
  ~ rejects_empty_target "u1" input_empty_target w_empty /\
  (scanService.StartScan "u1" input_empty_target w_empty).1.2 = None /\
  map (fun r => (row_id r, row_target r, row_status r))
    (scans (scanService.StartScan "u1" input_empty_target w_empty).2) =
  [("u1", "", "pending")].
Proof.
  split; [|split; reflexivity].
  intros H. destruct (H eq_refl) as [_ Hs]. discriminate Hs.
Qed.

(** C3, amended. [StartScan] does not look at the target. For every
    input, empty target or not, when the identifier drawn is not in the
    store and the insert is accepted, the job is created with that
    identifier, the target given and Status=Pending, it is returned, and
    its row is appended to the store. *)
Theorem StartScan_creates_pending_job (uuid : string)
  (input : model.StartScanInput) (w : World) :
  rejected w = false ->
  ~ In uuid (map row_id (scans w)) ->
  exists scan,
    (scanService.StartScan uuid input w).1 = (Some scan, None) /\
    model.ID scan = uuid /\
    model.Target scan = model.input_Target input /\
    model.Status scan = model.ScanStatusPending /\
    scans (scanService.StartScan uuid input w).2 =
      scans w ++ [created_row scan (clock w + 2)].
Proof.
  intros Hrej Hfresh. rewrite submit_eq. simpl. rewrite Create_eq. simpl.
  rewrite rejected_set_clock, Hrej.
  rewrite (has_id_false uuid (scans w) Hfresh). simpl.
  eexists. split; [reflexivity|]. simpl.
  repeat (split; [reflexivity|]).
  do 3 f_equal. lia.
Qed.

Lemma StartScan_creates_pending_job_witness :
  rejected w_one = false /\
  ~ In "u2" (map row_id (scans w_one)) /\
  exists scan,
    (scanService.StartScan "u2" input_empty_target w_one).1 = (Some scan, None) /\
    model.ID scan = "u2" /\
    model.Target scan = model.input_Target input_empty_target /\
    model.Status scan = model.ScanStatusPending /\
    scans (scanService.StartScan "u2" input_empty_target w_one).2 =
      scans w_one ++ [created_row scan (clock w_one + 2)].
Proof.
  assert (Hfresh : ~ In "u2" (map row_id (scans w_one))).
  { simpl. intros [H|[]]. discriminate H. }
  split; [reflexivity|]. split; [exact Hfresh|].
  apply (StartScan_creates_pending_job "u2" input_empty_target w_one).
  - reflexivity.
  - exact Hfresh.
Defined.

(** When the insert is refused, nothing is created. *)
Lemma StartScan_refused_creates_nothing (uuid : string)
  (input : model.StartScanInput) (w : World) :
  (scanService.StartScan uuid input w).1.2 <> None ->
  scans (scanService.StartScan uuid input w).2 = scans w.
Proof.
  rewrite submit_eq. simpl. rewrite Create_eq. simpl.
  rewrite rejected_set_clock.
  match goal with |- context [sent ?x] => pose proof (sent_frame x) as Hf end.
  destruct Hf as (Hsc & _). simpl in Hsc.
  destruct (rejected w); simpl; [intros _; exact Hsc|].
  destruct (existsb _ _); simpl; [intros _; exact Hsc|].
  intros H. now contradiction H.
Qed.

(** ** What the statements of the worker do to the world *)

Lemma Update_eq (scan : model.Scan) (w : World) :
  ScanRepository.Update scan w =
  let w1 := sent (set_clock (clock w + 1) w) in
  if rejected w then (Some ScanRepository.driver_error, w1)
  else (None, set_scans (map (ScanRepository.update_row scan (clock w)) (scans w)) w1).
Proof.
  unfold ScanRepository.Update. unfold bind at 1 2. unfold time_Now at 1.
  rewrite <- (rejected_set_clock (clock w + 1) w).
  unfold rejected, sent.
  pose proof (sent_frame (set_clock (clock w + 1) w)) as Hf. unfold sent in Hf.
  destruct (ScanRepository.statement_rejected (set_clock (clock w + 1) w))
    as [[] w1] eqn:Hs; simpl in *.
  - reflexivity.
  - destruct Hf as (Hsc & _). run_m. now rewrite Hsc.
Qed.

Lemma Update_frame (scan : model.Scan) (w : World) :
  let w' := (ScanRepository.Update scan w).2 in
  scan_results w' = scan_results w /\ cancels w' = cancels w /\
  cancelled w' = cancelled w /\ next_ctx w' = next_ctx w /\
  nuclei_calls w' = nuclei_calls w /\ faults w' = tail (faults w) /\
  scans w' = (if rejected w then scans w
              else map (ScanRepository.update_row scan (clock w)) (scans w)) /\
  (ScanRepository.Update scan w).1 =
    (if rejected w then Some ScanRepository.driver_error else None).
Proof.
  rewrite Update_eq.
  pose proof (sent_frame (set_clock (clock w + 1) w)) as Hf. simpl in Hf.
  destruct (rejected w); simpl; tauto.
Qed.

Lemma AddResult_eq (result : model.ScanResult) (w : World) :
  ScanRepository.AddResult result w =
  if rejected w then (Some ScanRepository.driver_error, sent w)
  else if existsb (fun r => String.eqb (row_id r) (model.ScanID result)) (scans w)
       then (None, set_scan_results
                     (scan_results w ++ [ScanRepository.row_of_result result])
                     (sent w))
       else (Some ScanRepository.foreign_key_violation, sent w).
Proof.
  unfold ScanRepository.AddResult. unfold bind at 1. unfold rejected, sent.
  pose proof (sent_frame w) as Hf. unfold sent in Hf.
  destruct (ScanRepository.statement_rejected w) as [[] w1] eqn:Hs; simpl in *.
  - reflexivity.
  - destruct Hf as (Hsc & Hsr & _). run_m. rewrite Hsc.
    destruct (existsb _ _); simpl; [|reflexivity].
    now rewrite Hsr.
Qed.

Lemma AddResult_frame (result : model.ScanResult) (w : World) :
  let w' := (ScanRepository.AddResult result w).2 in
  scans w' = scans w /\ cancels w' = cancels w /\
  cancelled w' = cancelled w /\ next_ctx w' = next_ctx w /\
  nuclei_calls w' = nuclei_calls w /\ clock w' = clock w /\
  faults w' = tail (faults w) /\
  scan_results w' =
    scan_results w ++
    (if negb (rejected w) &&
        existsb (fun r => String.eqb (row_id r) (model.ScanID result)) (scans w)
     then [ScanRepository.row_of_result result] else []).
Proof.
  rewrite AddResult_eq.
  pose proof (sent_frame w) as Hf.
  destruct (rejected w); simpl; [rewrite app_nil_r; tauto|].
  destruct (existsb _ _); simpl; rewrite ?app_nil_r; tauto.
Qed.

Lemma storeResults_cons (r : model.ScanResult) (results : list model.ScanResult)
  (w : World) :
  (ScanWorker.storeResults (r :: results) w).2 =
  (ScanWorker.storeResults results (ScanRepository.AddResult r w).2).2.
Proof.
  unfold ScanWorker.storeResults. simpl. unfold bind at 1 2.
  now destruct (ScanRepository.AddResult r w).
Qed.

(** Storing results touches the results table and the fault schedule
    only, and appends rows of the results it was given. *)
Lemma storeResults_frame (results : list model.ScanResult) :
  forall w : World,
    scans (ScanWorker.storeResults results w).2 = scans w /\
    cancels (ScanWorker.storeResults results w).2 = cancels w /\
    cancelled (ScanWorker.storeResults results w).2 = cancelled w /\
    next_ctx (ScanWorker.storeResults results w).2 = next_ctx w /\
    nuclei_calls (ScanWorker.storeResults results w).2 = nuclei_calls w /\
    clock (ScanWorker.storeResults results w).2 = clock w /\
    (faults w = [] -> faults (ScanWorker.storeResults results w).2 = []) /\
    exists stored,
      scan_results (ScanWorker.storeResults results w).2 =
        scan_results w ++ stored /\
      (faults w = [] ->
       Forall (fun r => In (model.ScanID r) (map row_id (scans w))) results ->
       stored = map ScanRepository.row_of_result results).
Proof.
  induction results as [|r results IH]; intros w.
  - simpl. repeat (split; [reflexivity || auto|]). exists []. split.
    + now rewrite app_nil_r.
    + reflexivity.
  - rewrite storeResults_cons.
    pose proof (AddResult_frame r w) as (A1 & A2 & A3 & A4 & A5 & A6 & A7 & A8).
    destruct (IH (ScanRepository.AddResult r w).2)
      as (I1 & I2 & I3 & I4 & I5 & I6 & I7 & stored & I8 & I9).
    split; [congruence|]. split; [congruence|]. split; [congruence|].
    split; [congruence|]. split; [congruence|]. split; [congruence|].
    split.
    { intros Hf. apply I7. now rewrite A7, Hf. }
    eexists. split.
    { rewrite I8, A8, <- app_assoc. reflexivity. }
    intros Hf Hall. inversion Hall as [|? ? Hin Hrest]; subst.
    destruct (no_faults_sent w Hf) as [Hrej _]. rewrite Hrej.
    rewrite (has_id_true _ _ Hin). simpl. f_equal.
    apply I9.
    + now rewrite A7, Hf.
    + now rewrite A1.
Qed.

(** The loop body, statement by statement. *)
Lemma processScan_eq (cfg : config.Nuclei)
  (engine : nat -> list nucleiLib.NucleiSDKOptions -> list string -> nucleiLib.Run)
  (scan : model.Scan) (w : World) :
  ScanWorker.processScan cfg engine scan w =
  let s1 := model.set_Status "running" scan in
  let u1 := ScanRepository.Update s1 w in
  match u1.1 with
  | Some _ => (tt, u1.2)
  | None =>
      let r := nucleiService.StartScan cfg engine s1 u1.2 in
      match r.1.2 with
      | Some e =>
          (tt, (ScanRepository.Update
                  (model.set_Error e (model.set_Status "failed" s1)) r.2).2)
      | None =>
          (tt, (ScanRepository.Update (model.set_Status "completed" s1)
                  (ScanWorker.storeResults r.1.1 r.2).2).2)
      end
  end.
Proof.
  unfold ScanWorker.processScan. unfold bind at 1. simpl.
  destruct (ScanRepository.Update _ w) as [[e|] w1]; simpl; [reflexivity|].
  unfold bind at 1.
  destruct (nucleiService.StartScan _ _ _ w1) as [[rs [e|]] w2]; simpl.
  - unfold bind, ret. now destruct (ScanRepository.Update _ w2).
  - unfold bind at 1. destruct (ScanWorker.storeResults rs w2) as [[] w3].
    unfold bind, ret. simpl. now destruct (ScanRepository.Update _ w3).
Qed.

Lemma run_of_congr (cfg : config.Nuclei)
  (engine : nat -> list nucleiLib.NucleiSDKOptions -> list string -> nucleiLib.Run)
  (scan : model.Scan) (w1 w : World) :
  nuclei_calls w1 = nuclei_calls w -> next_ctx w1 = next_ctx w ->
  nucleiService.run_of cfg engine scan w1 = nucleiService.run_of cfg engine scan w.
Proof. intros H1 H2. unfold nucleiService.run_of. now rewrite H1, H2. Qed.

(** What a call of the adapter returns and what it leaves untouched. *)
Lemma StartScan_outcome (cfg : config.Nuclei)
  (engine : nat -> list nucleiLib.NucleiSDKOptions -> list string -> nucleiLib.Run)
  (scan : model.Scan) (w : World) :
  scans (nucleiService.StartScan cfg engine scan w).2 = scans w /\
  scan_results (nucleiService.StartScan cfg engine scan w).2 = scan_results w /\
  faults (nucleiService.StartScan cfg engine scan w).2 = faults w /\
  nuclei_calls (nucleiService.StartScan cfg engine scan w).2 =
    nuclei_calls w ++ [scan] /\
  match nucleiService.run_of cfg engine scan w with
  | nucleiLib.InitFails err =>
      (nucleiService.StartScan cfg engine scan w).1 =
        ([], Some ("initializing nuclei engine: " +:+ err))
  | nucleiLib.Executes events _ (Some e) =>
      (nucleiService.StartScan cfg engine scan w).1 =
        ([], Some ("nuclei execution: " +:+ e))
  | nucleiLib.Executes events _ None =>
      (nucleiService.StartScan cfg engine scan w).1.2 = None /\
      map result_key (nucleiService.StartScan cfg engine scan w).1.1 =
        map (event_key scan) (emitted events) /\
      Forall (fun r => model.ScanID r = model.ID scan)
        (nucleiService.StartScan cfg engine scan w).1.1
  end.
Proof.
  destruct (nucleiService.run_of cfg engine scan w) as [err|events i err] eqn:H.
  - rewrite (StartScan_init_fails _ _ _ _ _ H). simpl. auto.
  - destruct (StartScan_executes _ _ _ _ _ _ _ H) as (rs & t & Hk & Hid & ->).
    destruct err; simpl; auto 10.
Qed.

(** ** Rows written by the worker *)

Lemma written_refl (S : list model.Scan) (rows : list ScanRow) :
  written S rows rows.
Proof. induction rows; constructor; [now left | assumption]. Qed.

Lemma row_written_trans (S : list model.Scan) (r r' r'' : ScanRow) :
  row_written S r r' -> row_written S r' r'' -> row_written S r r''.
Proof.
  intros [->|(s1 & st1 & n1 & Hin1 & Hid1 & Hst1 & ->)] H2; [exact H2|].
  destruct H2 as [->|(s2 & st2 & n2 & Hin2 & Hid2 & Hst2 & ->)].
  - right. now exists s1, st1, n1.
  - right. exists s2, st2, n2. repeat split; auto.
Qed.

Lemma written_trans (S : list model.Scan) (a b c : list ScanRow) :
  written S a b -> written S b c -> written S a c.
Proof.
  unfold written. intros Hab. revert c.
  induction Hab as [|x y l k Hxy Hlk IH]; intros c Hbc.
  - inversion Hbc. constructor.
  - inversion Hbc as [|? z ? k' Hyz Hkk']; subst. constructor.
    + eapply row_written_trans; eassumption.
    + now apply IH.
Qed.

Lemma written_mono (S S' : list model.Scan) (a b : list ScanRow) :
  (forall s, In s S -> In s S') -> written S a b -> written S' a b.
Proof.
  intros Hsub Hab. induction Hab as [|x y l k Hxy Hlk IH]; constructor; auto.
  destruct Hxy as [->|(s & st & n & Hin & Hid & Hst & ->)]; [now left|].
  right. exists s, st, n. auto.
Qed.

Lemma update_written (S : list model.Scan) (s scan : model.Scan) (now : Z)
  (rows : list ScanRow) :
  In s S -> model.ID scan = model.ID s -> model.Target scan = model.Target s ->
  In (model.Status scan) worker_statuses ->
  written S rows (map (ScanRepository.update_row scan now) rows).
Proof.
  intros Hin Hid Htg Hst. induction rows as [|r rows IH]; constructor; auto.
  unfold ScanRepository.update_row.
  destruct (String.eqb_spec (row_id r) (model.ID scan)) as [E|E]; [|now left].
  right. exists s, (model.Status scan), now. rewrite <- Htg.
  repeat split; auto. congruence.
Qed.

(** What one turn of the loop does, whatever the faults and the engine. *)
Lemma processScan_frame (cfg : config.Nuclei)
  (engine : nat -> list nucleiLib.NucleiSDKOptions -> list string -> nucleiLib.Run)
  (scan : model.Scan) (w : World) :
  written [scan] (scans w) (scans (ScanWorker.processScan cfg engine scan w).2) /\
  nuclei_calls (ScanWorker.processScan cfg engine scan w).2 =
    nuclei_calls w ++
    (if rejected w then [] else [model.set_Status "running" scan]) /\
  (faults w = [] -> faults (ScanWorker.processScan cfg engine scan w).2 = []) /\
  exists stored,
    scan_results (ScanWorker.processScan cfg engine scan w).2 =
      scan_results w ++ stored.
Proof.
  rewrite processScan_eq. cbv zeta.
  set (s1 := model.set_Status "running" scan).
  pose proof (Update_frame s1 w) as (U1 & _ & _ & _ & U5 & U6 & U7 & U8).
  cbv zeta in *. rewrite U8.
  assert (Hw1 : written [scan] (scans w) (scans (ScanRepository.Update s1 w).2)).
  { rewrite U7. destruct (rejected w); [apply written_refl|].
    apply (update_written [scan] scan); simpl; auto. }
  destruct (rejected w) eqn:Hrej; simpl.
  - split; [exact Hw1|]. split; [now rewrite U5, app_nil_r|].
    split; [intros Hf; now rewrite U6, Hf|].
    exists []. now rewrite U1, app_nil_r.
  - set (w1 := (ScanRepository.Update s1 w).2) in *.
    pose proof (StartScan_outcome cfg engine s1 w1) as (S1 & S2 & S3 & S4 & _).
    set (r := nucleiService.StartScan cfg engine s1 w1) in *.
    destruct (r.1.2) as [e|].
    + match goal with
      | |- context [ScanRepository.Update ?s r.2] =>
          pose proof (Update_frame s r.2) as (V1 & _ & _ & _ & V5 & V6 & V7 & _);
          cbv zeta in V1, V5, V6, V7;
          assert (Hw2 : written [scan] (scans r.2)
                          (scans (ScanRepository.Update s r.2).2))
      end.
      { rewrite V7. destruct (rejected r.2); [apply written_refl|].
        apply (update_written [scan] scan); simpl; auto. }
      simpl. split.
      { eapply written_trans; [exact Hw1|]. rewrite <- S1. exact Hw2. }
      split; [now rewrite V5, S4, U5|].
      split; [intros Hf; rewrite V6, S3, U6, Hf; reflexivity|].
      exists []. now rewrite V1, S2, U1, app_nil_r.
    + pose proof (storeResults_frame r.1.1 r.2)
        as (T1 & _ & _ & _ & T5 & _ & T7 & stored & T8 & _).
      set (w3 := (ScanWorker.storeResults r.1.1 r.2).2) in *.
      match goal with
      | |- context [ScanRepository.Update ?s w3] =>
          pose proof (Update_frame s w3) as (V1 & _ & _ & _ & V5 & V6 & V7 & _);
          cbv zeta in V1, V5, V6, V7;
          assert (Hw2 : written [scan] (scans w3)
                          (scans (ScanRepository.Update s w3).2))
      end.
      { rewrite V7. destruct (rejected w3); [apply written_refl|].
        apply (update_written [scan] scan); simpl; auto. }
      simpl. split.
      { eapply written_trans; [exact Hw1|]. rewrite <- S1, <- T1. exact Hw2. }
      split; [now rewrite V5, T5, S4, U5|].
      split.
      { intros Hf. rewrite V6, T7; [reflexivity|]. rewrite S3, U6, Hf.
        reflexivity. }
      exists stored. now rewrite V1, T8, S2, U1.
Qed.

Lemma for_range_cons {A : Type} (x : A) (xs : list A) (body : A -> M unit)
  (w : World) :
  (for_range (x :: xs) body w).2 = (for_range xs body (body x w).2).2.
Proof. simpl. unfold bind. now destruct (body x w). Qed.

(** The loop over the listed scans. *)
Lemma process_all_frame (cfg : config.Nuclei)
  (engine : nat -> list nucleiLib.NucleiSDKOptions -> list string -> nucleiLib.Run)
  (S : list model.Scan) :
  forall w : World,
    written S (scans w)
      (scans (for_range S (ScanWorker.processScan cfg engine) w).2) /\
    (exists calls,
       nuclei_calls (for_range S (ScanWorker.processScan cfg engine) w).2 =
         nuclei_calls w ++ calls /\
       Forall (fun c => exists s, In s S /\ c = model.set_Status "running" s)
         calls /\
       (faults w = [] -> calls = map (model.set_Status "running") S)) /\
    (faults w = [] ->
     faults (for_range S (ScanWorker.processScan cfg engine) w).2 = []) /\
    exists stored,
      scan_results (for_range S (ScanWorker.processScan cfg engine) w).2 =
        scan_results w ++ stored.
Proof.
  induction S as [|s S IH]; intros w.
  - simpl. split; [apply written_refl|]. split.
    + exists []. rewrite app_nil_r. auto.
    + split; [auto|]. exists []. now rewrite app_nil_r.
  - rewrite for_range_cons.
    pose proof (processScan_frame cfg engine s w) as (P1 & P2 & P3 & st1 & P4).
    destruct (IH (ScanWorker.processScan cfg engine s w).2)
      as (I1 & (calls & I2 & I3 & I4) & I5 & st2 & I6).
    split.
    { eapply written_trans.
      - eapply written_mono; [|exact P1]. intros x [->|[]]. now left.
      - eapply written_mono; [|exact I1]. intros x Hx. now right. }
    split.
    { eexists. split; [rewrite I2, P2, <- app_assoc; reflexivity|]. split.
      - apply Forall_app. split.
        + destruct (rejected w); constructor; [|constructor].
          exists s. split; [now left | reflexivity].
        + eapply Forall_impl; [exact I3|].
          intros c (x & Hx & ->). exists x. split; [now right | reflexivity].
      - intros Hf. destruct (no_faults_sent w Hf) as [-> _]. simpl.
        f_equal. apply I4. now apply P3. }
    split; [intros Hf; apply I5; now apply P3|].
    exists (st1 ++ st2). now rewrite I6, P4, <- app_assoc.
Qed.

Lemma processPendingScans_eq (cfg : config.Nuclei)
  (engine : nat -> list nucleiLib.NucleiSDKOptions -> list string -> nucleiLib.Run)
  (w : World) :
  ScanWorker.processPendingScans cfg engine w =
  if rejected w then (Some ScanRepository.driver_error, sent w)
  else (None,
        (for_range (pending w) (ScanWorker.processScan cfg engine) (sent w)).2).
Proof.
  unfold ScanWorker.processPendingScans. unfold bind at 1.
  rewrite List_eq. simpl.
  destruct (rejected w); simpl; [reflexivity|].
  unfold bind, ret. fold (pending w).
  now destruct (for_range (pending w) _ (sent w)).
Qed.

(** One tick of the worker. *)
Lemma tick_frame (cfg : config.Nuclei)
  (engine : nat -> list nucleiLib.NucleiSDKOptions -> list string -> nucleiLib.Run)
  (w : World) :
  written (pending w) (scans w)
    (scans (ScanWorker.processPendingScans cfg engine w).2) /\
  (exists calls,
     nuclei_calls (ScanWorker.processPendingScans cfg engine w).2 =
       nuclei_calls w ++ calls /\
     Forall (fun c => exists s, In s (pending w) /\
                                c = model.set_Status "running" s) calls /\
     (faults w = [] -> calls = map (model.set_Status "running") (pending w))) /\
  exists stored,
    scan_results (ScanWorker.processPendingScans cfg engine w).2 =
      scan_results w ++ stored.
Proof.
  rewrite processPendingScans_eq.
  pose proof (sent_frame w) as (Hsc & Hsr & _ & _ & _ & _ & Hnc & Hfl).
  destruct (rejected w) eqn:Hrej; simpl.
  - rewrite Hsc, Hsr, Hnc. split; [apply written_refl|]. split.
    + exists []. rewrite app_nil_r. split; [reflexivity|]. split; [constructor|].
      intros Hf. destruct (no_faults_sent w Hf) as [Hr _]. congruence.
    + exists []. now rewrite app_nil_r.
  - destruct (process_all_frame cfg engine (pending w) (sent w))
      as (I1 & (calls & I2 & I3 & I4) & _ & stored & I6).
    rewrite Hsc in I1. rewrite Hnc in I2. rewrite Hsr in I6.
    split; [exact I1|]. split.
    + exists calls. split; [exact I2|]. split; [exact I3|].
      intros Hf. apply I4. now rewrite Hfl, Hf.
    + now exists stored.
Qed.

(** ** What the worker hands to the engine *)

Lemma set_Status_has_defaults (st : string) (s : model.Scan) :
  has_defaults s -> has_defaults (model.set_Status st s).
Proof. intros H. exact H. Qed.

Lemma pending_has_defaults (w : World) (s : model.Scan) :
  In s (pending w) -> has_defaults s.
Proof.
  unfold pending. intros H. apply in_map_iff in H.
  destruct H as (r & <- & _). apply scan_of_row_has_defaults.
Qed.

(** C10. Whatever the rows hold, every scan returned by [List] and the
    scan returned by [Get] have no template ids, no tags and the fixed
    options (10, 100, 30, 3, false); and every scan a tick of the worker
    hands to the engine adapter carries these values too: the calls of the
    tick are calls on listed pending scans, set to "running", and with no
    rejected statement there is exactly one for each of them, in order. *)
Theorem reads_return_defaults (cfg : config.Nuclei)
  (engine : nat -> list nucleiLib.NucleiSDKOptions -> list string -> nucleiLib.Run)
  (status target templateID : option string) (id : string) (w : World) :
  Forall has_defaults (ScanRepository.List status target templateID w).1.1 /\
  match (ScanRepository.Get id w).1.1 with
  | Some s => has_defaults s
  | None => True
  end /\
  exists calls,
    nuclei_calls (ScanWorker.processPendingScans cfg engine w).2 =
      nuclei_calls w ++ calls /\
    Forall has_defaults calls /\
    Forall (fun c => In (model.ID c) (map row_id (scans w))) calls /\
    (faults w = [] ->
     map model.ID calls =
     map row_id (List.filter (fun r => String.eqb (row_status r) "pending")
                   (scans w))).
Proof.
  split; [apply List_has_defaults|]. split.
  - rewrite Get_eq. simpl. destruct (rejected w); simpl; [exact I|].
    destruct (find _ _); simpl; [apply scan_of_row_has_defaults | exact I].
  - destruct (tick_frame cfg engine w) as (_ & (calls & C1 & C2 & C3) & _).
    exists calls. split; [exact C1|]. split; [|split].
    + eapply Forall_impl; [exact C2|]. intros c (s & Hs & ->).
      apply set_Status_has_defaults. now apply (pending_has_defaults w).
    + eapply Forall_impl; [exact C2|]. intros c (s & Hs & ->). simpl.
      unfold pending in Hs. apply in_map_iff in Hs.
      destruct Hs as (r & <- & Hr). simpl.
      unfold selected in Hr. apply filter_In in Hr. destruct Hr as [Hr _].
      apply in_map_iff. now exists r.
    + intros Hf. rewrite (C3 Hf). unfold pending, selected.
      rewrite !map_map. simpl.
      rewrite <- (map_map ScanRepository.scan_of_row model.ID).
      rewrite map_map. simpl. f_equal. apply filter_ext.
      intros r. unfold ScanRepository.arg_eqb. simpl.
      now rewrite andb_true_r.
Qed.

(** On the store holding job [u1], submitted with selector [t1] and a
    concurrency of 5, the listed scan and the scan the tick hands to the
    adapter have no selector and the fixed options. *)
Example listed_scan_forgets_selectors :
  map row_template_ids (scans w_one) = [["t1"]] /\
  map (fun s => (model.TemplateIDs s, model.Options s))
    (ScanRepository.List None None None w_one).1.1 =
    [([], Some default_options)] /\
  nuclei_calls (ScanWorker.processPendingScans cfg0 engine_succeeds w_one).2 =
    [scan_u1].
Proof. repeat split. Qed.

(** ** Invariants of the store *)

Lemma written_frame (S : list model.Scan) (rows rows' : list ScanRow) :
  agrees S rows -> written S rows rows' -> map frame rows' = map frame rows.
Proof.
  intros Hag H. induction H as [|r r' l k Hrr' Hlk IH]; simpl; [reflexivity|].
  rewrite IH.
  - f_equal. destruct Hrr' as [->|(s & st & n & Hin & Hid & _ & ->)];
      [reflexivity|].
    unfold frame. simpl. rewrite (Hag s r Hin (or_introl eq_refl) Hid).
    reflexivity.
  - intros s x Hs Hx. apply Hag; [exact Hs | now right].
Qed.

Lemma written_status (S : list model.Scan) (rows rows' : list ScanRow) :
  written S rows rows' ->
  Forall2 (fun r r' => row_id r' = row_id r /\
                       (row_status r' = row_status r \/
                        In (row_status r') worker_statuses)) rows rows'.
Proof.
  intros H. induction H as [|r r' l k Hrr' Hlk IH]; constructor; auto.
  destruct Hrr' as [->|(s & st & n & _ & _ & Hst & ->)]; simpl; auto.
Qed.

Lemma NoDup_ids_eq (rows : list ScanRow) (r1 r2 : ScanRow) :
  NoDup (map row_id rows) -> In r1 rows -> In r2 rows ->
  row_id r1 = row_id r2 -> r1 = r2.
Proof.
  induction rows as [|r rows IH]; simpl; intros Hnd H1 H2 E; [contradiction|].
  apply NoDup_cons in Hnd. destruct Hnd as [Hnotin Hnd].
  destruct H1 as [->|H1], H2 as [->|H2]; auto.
  - exfalso. apply Hnotin. rewrite E. apply list_elem_of_In.
    now apply in_map.
  - exfalso. apply Hnotin. rewrite <- E. apply list_elem_of_In.
    now apply in_map.
Qed.

Lemma pending_agrees (w : World) : pk_unique w -> agrees (pending w) (scans w).
Proof.
  intros Hpk s r Hs Hr E. unfold pending in Hs. apply in_map_iff in Hs.
  destruct Hs as (r0 & <- & Hr0). unfold selected in Hr0.
  apply filter_In in Hr0. destruct Hr0 as [Hr0 _]. simpl in *.
  now rewrite (NoDup_ids_eq (scans w) r r0 Hpk Hr Hr0 E).
Qed.

(** A tick leaves every column but [status] and [updated_at] as it was. *)
Lemma tick_keeps_frame (cfg : config.Nuclei)
  (engine : nat -> list nucleiLib.NucleiSDKOptions -> list string -> nucleiLib.Run)
  (w : World) :
  pk_unique w ->
  map frame (scans (ScanWorker.processPendingScans cfg engine w).2) =
  map frame (scans w).
Proof.
  intros Hpk. destruct (tick_frame cfg engine w) as (Hw & _).
  eapply written_frame; [|exact Hw]. now apply pending_agrees.
Qed.

Lemma CancelScan_scans (id : string) (w : World) :
  scans (nucleiService.CancelScan id w).2 = scans w.
Proof.
  unfold nucleiService.CancelScan. run_m. now destruct (cancels w !! id).
Qed.

Lemma Delete_eq (id : string) (w : World) :
  ScanRepository.Delete id w =
  if rejected w then (Some ScanRepository.driver_error, sent w)
  else (None,
        set_scan_results
          (List.filter (fun r => negb (String.eqb (res_scan_id r) id))
             (scan_results w))
          (set_scans
             (List.filter (fun r => negb (String.eqb (row_id r) id)) (scans w))
             (sent w))).
Proof.
  unfold ScanRepository.Delete. unfold bind at 1. unfold rejected, sent.
  pose proof (sent_frame w) as (Hsc & Hsr & _). unfold sent in Hsc, Hsr.
  destruct (ScanRepository.statement_rejected w) as [[] w1]; simpl in *.
  - reflexivity.
  - run_m. now rewrite Hsc, Hsr.
Qed.

Lemma Delete_scans (id : string) (w : World) :
  scans (ScanRepository.Delete id w).2 = scans w \/
  scans (ScanRepository.Delete id w).2 =
    List.filter (fun r => negb (String.eqb (row_id r) id)) (scans w).
Proof.
  rewrite Delete_eq. pose proof (sent_frame w) as (Hsc & _).
  destruct (rejected w); simpl; [now left | now right].
Qed.

Lemma DeleteScan_scans (id : string) (w : World) :
  scans (scanService.DeleteScan id w).2 = scans w \/
  scans (scanService.DeleteScan id w).2 =
    List.filter (fun r => negb (String.eqb (row_id r) id)) (scans w).
Proof.
  unfold scanService.DeleteScan, bind. rewrite Get_eq.
  pose proof (sent_frame w) as (Hsc & _).
  destruct (rejected w); simpl; [now left|].
  destruct (find _ (scans w)) as [r|]; simpl; [|now left].
  destruct (String.eqb _ _).
  - pose proof (CancelScan_scans id (sent w)) as Hcs.
    destruct (nucleiService.CancelScan id (sent w)) as [e w2].
    simpl in Hcs. unfold ret.
    pose proof (Delete_scans id w2) as Hd.
    destruct (ScanRepository.Delete id w2) as [[e2|] w3]; simpl in *;
      rewrite Hcs, Hsc in Hd; exact Hd.
  - unfold ret.
    pose proof (Delete_scans id (sent w)) as Hd.
    destruct (ScanRepository.Delete id (sent w)) as [[e2|] w3]; simpl in *;
      rewrite Hsc in Hd; exact Hd.
Qed.

Lemma run_op_scans_step (cfg : config.Nuclei)
  (engine : nat -> list nucleiLib.NucleiSDKOptions -> list string -> nucleiLib.Run)
  (op : Op) (w : World) :
  pk_unique w -> scans_step (scans w) (scans (run_op cfg engine op w)).
Proof.
  intros Hpk. destruct op as [uuid input|st tg tp|id|id|id|]; simpl.
  - rewrite submit_eq. simpl. rewrite Create_eq. simpl.
    rewrite rejected_set_clock.
    match goal with |- context [sent ?x] => pose proof (sent_frame x) as (Hsc & _) end.
    simpl in Hsc.
    destruct (rejected w); simpl; [apply step_same; now rewrite Hsc|].
    destruct (existsb _ (scans w)) eqn:Hex; simpl;
      [apply step_same; now rewrite Hsc|].
    apply step_insert; try reflexivity. simpl. intros Hin.
    rewrite (has_id_true _ _ Hin) in Hex. discriminate.
  - unfold scanService.ListScans. unfold bind. rewrite List_eq.
    pose proof (sent_frame w) as (Hsc & _).
    apply step_same. simpl.
    destruct (rejected w); simpl; [now rewrite Hsc|].
    destruct (ScanRepository.params_ok _ _); simpl; now rewrite Hsc.
  - unfold scanService.GetScan. rewrite Get_eq. simpl.
    pose proof (sent_frame w) as (Hsc & _). apply step_same. now rewrite Hsc.
  - destruct (DeleteScan_scans id w) as [-> | ->];
      [now apply step_same | apply step_delete].
  - apply step_same. now rewrite CancelScan_scans.
  - apply step_same. now apply tick_keeps_frame.
Qed.

Lemma same_frames (a : list ScanRow) :
  forall b, map frame a = map frame b ->
            Forall2 (fun r r' => frame r = frame r') a b.
Proof.
  induction a as [|x a IH]; intros [|y b] H; simpl in H; try discriminate.
  - constructor.
  - constructor.
    + now apply (f_equal (hd (frame x))) in H.
    + apply IH. now apply (f_equal (@tail _)) in H.
Qed.

Lemma same_frames_ids (a b : list ScanRow) :
  map frame a = map frame b -> map row_id a = map row_id b.
Proof.
  intros H. apply same_frames in H.
  induction H as [|x y a b Hxy Hab IH]; simpl; [reflexivity|].
  rewrite IH. f_equal. unfold frame in Hxy. congruence.
Qed.

Lemma NoDup_ids_filter (keep : ScanRow -> bool) (rows : list ScanRow) :
  NoDup (map row_id rows) -> NoDup (map row_id (List.filter keep rows)).
Proof.
  induction rows as [|r rows IH]; simpl; intros H; [exact H|].
  apply NoDup_cons in H. destruct H as [Hnotin Hnd].
  destruct (keep r); simpl; [|now apply IH].
  apply NoDup_cons. split; [|now apply IH].
  intros Hin. apply Hnotin. apply list_elem_of_In in Hin.
  apply list_elem_of_In. apply in_map_iff in Hin.
  destruct Hin as (x & Hx & Hin). apply filter_In in Hin.
  apply in_map_iff. exists x. tauto.
Qed.

Lemma scans_step_invariants (rows rows' : list ScanRow) :
  scans_step rows rows' ->
  NoDup (map row_id rows) /\ timestamps_null rows ->
  NoDup (map row_id rows') /\ timestamps_null rows'.
Proof.
  intros Hstep [Hnd Hts]. destruct Hstep as [rows' Hsame|r Hfresh Hs Hc|keep].
  - split; [now rewrite (same_frames_ids _ _ Hsame)|].
    apply same_frames in Hsame. unfold timestamps_null in *.
    induction Hsame as [|x y a b Hxy Hab IH]; [constructor|].
    inversion Hts as [|? ? [Hx1 Hx2] Hrest]; subst.
    apply NoDup_cons in Hnd. destruct Hnd as [_ Hnd].
    constructor; [|now apply IH].
    unfold frame in Hxy. split; congruence.
  - split.
    + rewrite map_app. simpl. apply NoDup_app. split; [exact Hnd|]. split.
      * intros x Hx Hin. apply list_elem_of_In in Hin.
        destruct Hin as [Hin|[]]. subst x. apply Hfresh.
        now apply list_elem_of_In.
      * apply NoDup_singleton.
    + apply Forall_app. split; [exact Hts|]. now repeat constructor.
  - split; [now apply NoDup_ids_filter|].
    unfold timestamps_null in *. rewrite List.Forall_forall in *.
    intros x Hx. apply filter_In in Hx. now apply Hts.
Qed.

Lemma reachable_invariants (cfg : config.Nuclei)
  (engine : nat -> list nucleiLib.NucleiSDKOptions -> list string -> nucleiLib.Run)
  (w : World) :
  reachable cfg engine w -> pk_unique w /\ timestamps_null (scans w).
Proof.
  induction 1 as [w (Hs & _ & _)|w op Hr IH].
  - unfold pk_unique, timestamps_null. rewrite Hs. split; constructor.
  - destruct IH as [Hpk Hts].
    apply (scans_step_invariants (scans w)).
    + now apply run_op_scans_step.
    + now split.
Qed.

(** ** Timestamps *)

Lemma w_done_reachable : reachable cfg0 engine_succeeds w_done.
Proof.
  apply reachable_step.
  apply (reachable_step cfg0 engine_succeeds w_empty (Submit "u1" input_x)).
  apply reachable_initial. repeat split.
Qed.

(** C4 fails: after one submission and one tick the job is Completed and
    has neither a start time nor a completion time. *)
Lemma completed_job_has_no_timestamps :
  reachable cfg0 engine_succeeds w_done /\
  map (fun r => (row_status r, row_started_at r, row_completed_at r))
    (scans w_done) = [("completed", None, None)] /\
  ~ timestamps_follow_status w_done.
Proof.
  split; [exact w_done_reachable|]. split; [reflexivity|].
  intros H. inversion H as [|r rows [[Hs _] _] _ Heq]; subst.
  discriminate (Hs eq_refl).
Qed.

(** C4, amended. In every reachable state every job has a null
    [started_at] and a null [completed_at], whatever its Status: neither
    the Pending-to-Running transition nor a transition into a terminal
    state sets a timestamp other than [updated_at]. *)
Theorem timestamps_are_never_set (cfg : config.Nuclei)
  (engine : nat -> list nucleiLib.NucleiSDKOptions -> list string -> nucleiLib.Run)
  (w : World) :
  reachable cfg engine w ->
  Forall (fun r => row_started_at r = None /\ row_completed_at r = None)
    (scans w).
Proof. intros H. now apply (reachable_invariants cfg engine w). Qed.

Lemma timestamps_are_never_set_witness :
  reachable cfg0 engine_succeeds w_done /\
  Forall (fun r => row_started_at r = None /\ row_completed_at r = None)
    (scans w_done).
Proof.
  split; [exact w_done_reachable|].
  apply (timestamps_are_never_set cfg0 engine_succeeds w_done).
  exact w_done_reachable.
Defined.

(** ** Target and options *)

(** C8. In every reachable state, whatever operation comes next (a tick of
    the worker with its status updates, a submission, a deletion, a
    cancellation, a query), a job that is still in the store afterwards
    has the target and the options it had before. *)
Theorem target_and_options_are_write_once (cfg : config.Nuclei)
  (engine : nat -> list nucleiLib.NucleiSDKOptions -> list string -> nucleiLib.Run)
  (op : Op) (w : World) (r r' : ScanRow) :
  reachable cfg engine w ->
  In r (scans w) ->
  In r' (scans (run_op cfg engine op w)) ->
  row_id r' = row_id r ->
  row_target r' = row_target r /\ row_options r' = row_options r.
Proof.
  intros Hreach Hr Hr' Hid.
  destruct (reachable_invariants cfg engine w Hreach) as [Hpk _].
  pose proof (run_op_scans_step cfg engine op w Hpk) as Hstep.
  destruct Hstep as [rows' Hsame|r1 Hfresh _ _|keep].
  - assert (Hf : In (frame r') (map frame (scans w))).
    { rewrite <- Hsame. now apply in_map. }
    apply in_map_iff in Hf. destruct Hf as (r0 & Hf & Hr0).
    assert (r0 = r).
    { apply (NoDup_ids_eq (scans w)); auto. unfold frame in Hf. congruence. }
    subst r0. unfold frame in Hf. split; congruence.
  - apply in_app_or in Hr'. destruct Hr' as [Hr'|[<-|[]]].
    + now rewrite (NoDup_ids_eq (scans w) r' r Hpk Hr' Hr Hid).
    + exfalso. apply Hfresh. rewrite Hid. now apply in_map.
  - apply filter_In in Hr'. destruct Hr' as [Hr' _].
    now rewrite (NoDup_ids_eq (scans w) r' r Hpk Hr' Hr Hid).
Qed.

Lemma w_one_reachable : reachable cfg0 engine_succeeds w_one.
Proof.
  apply (reachable_step cfg0 engine_succeeds w_empty (Submit "u1" input_x)).
  apply reachable_initial. repeat split.
Qed.

Lemma target_and_options_are_write_once_witness :
  reachable cfg0 engine_succeeds w_one /\
  In row_u1 (scans w_one) /\
  In row_u1_done (scans (run_op cfg0 engine_succeeds Tick w_one)) /\
  row_id row_u1_done = row_id row_u1 /\
  row_target row_u1_done = row_target row_u1 /\
  row_options row_u1_done = row_options row_u1.
Proof.
  assert (H1 : In row_u1 (scans w_one)) by (vm_compute; left; reflexivity).
  assert (H2 : In row_u1_done (scans (run_op cfg0 engine_succeeds Tick w_one)))
    by (vm_compute; left; reflexivity).
  split; [exact w_one_reachable|]. split; [exact H1|]. split; [exact H2|].
  split; [reflexivity|].
  apply (target_and_options_are_write_once cfg0 engine_succeeds Tick w_one
           row_u1 row_u1_done w_one_reachable H1 H2 eq_refl).
Defined.

(** ** Results and final status of a run *)

Lemma update_row_id (scan : model.Scan) (now : Z) (rows : list ScanRow) :
  map row_id (map (ScanRepository.update_row scan now) rows) = map row_id rows.
Proof.
  rewrite map_map. apply map_ext. intros r. unfold ScanRepository.update_row.
  now destruct (String.eqb _ _).
Qed.

Lemma row_key_of_result (results : list model.ScanResult) :
  map row_key (map ScanRepository.row_of_result results) =
  map result_key results.
Proof. rewrite map_map. apply map_ext. reflexivity. Qed.

Lemma processScan_results (cfg : config.Nuclei)
  (engine : nat -> list nucleiLib.NucleiSDKOptions -> list string -> nucleiLib.Run)
  (scan : model.Scan) (w : World) :
  match nucleiService.run_of cfg engine (model.set_Status "running" scan) w with
  | nucleiLib.Executes events _ None =>
      exists stored,
        scan_results (ScanWorker.processScan cfg engine scan w).2 =
          scan_results w ++ stored /\
        (faults w = [] -> In (model.ID scan) (map row_id (scans w)) ->
         map row_key stored = map (event_key scan) (emitted events))
  | _ =>
      scan_results (ScanWorker.processScan cfg engine scan w).2 = scan_results w
  end.
Proof.
  rewrite processScan_eq. cbv zeta.
  set (s1 := model.set_Status "running" scan).
  pose proof (Update_frame s1 w) as (U1 & _ & _ & U4 & U5 & U6 & U7 & U8).
  cbv zeta in *. rewrite U8.
  destruct (rejected w) eqn:Hrej; simpl.
  - destruct (nucleiService.run_of cfg engine s1 w) as [err|events i [e|]];
      try exact U1.
    exists []. rewrite app_nil_r. split; [exact U1|].
    intros Hf. destruct (no_faults_sent w Hf) as [Hr _]. congruence.
  - set (w1 := (ScanRepository.Update s1 w).2) in *.
    pose proof (StartScan_outcome cfg engine s1 w1) as (S1 & S2 & S3 & _ & S5).
    rewrite (run_of_congr cfg engine s1 w1 w U5 U4) in S5.
    set (r := nucleiService.StartScan cfg engine s1 w1) in *.
    destruct (nucleiService.run_of cfg engine s1 w) as [err|events i [e|]].
    + rewrite S5. simpl.
      match goal with
      | |- context [ScanRepository.Update ?s r.2] =>
          pose proof (Update_frame s r.2) as (V1 & _)
      end.
      cbv zeta in V1. now rewrite V1, S2, U1.
    + rewrite S5. simpl.
      match goal with
      | |- context [ScanRepository.Update ?s r.2] =>
          pose proof (Update_frame s r.2) as (V1 & _)
      end.
      cbv zeta in V1. now rewrite V1, S2, U1.
    + destruct S5 as (Hnone & Hkeys & Hids). rewrite Hnone.
      pose proof (storeResults_frame r.1.1 r.2)
        as (T1 & _ & _ & _ & _ & _ & _ & stored & T8 & T9).
      match goal with
      | |- context [ScanRepository.Update ?s ?w3] =>
          pose proof (Update_frame s w3) as (V1 & _)
      end.
      cbv zeta in V1. cbn [snd]. exists stored.
      split; [now rewrite V1, T8, S2, U1|].
      intros Hf Hin. rewrite T9.
      * now rewrite row_key_of_result, Hkeys.
      * now rewrite S3, U6, Hf.
      * eapply Forall_impl; [exact Hids|]. intros x Hx. simpl in Hx.
        rewrite Hx, S1, U7, update_row_id. exact Hin.
Qed.

(** C1 fails: the engine emits two events for the pending job [u1] and
    then fails; after the tick the results table is empty and the job is
    Failed. *)
Lemma results_before_failure_are_dropped :
  ~ keeps_results_emitted_before_failure cfg0 engine_emits_then_fails
      scan_u1 w_one /\
  scan_results
    (ScanWorker.processPendingScans cfg0 engine_emits_then_fails w_one).2 = [] /\
  map row_status
    (scans (ScanWorker.processPendingScans cfg0 engine_emits_then_fails w_one).2)
  = ["failed"].
Proof.
  split; [|split; reflexivity].
  intros H.
  specialize (H [Some event_a; Some event_b] false "connection reset" event_a
                eq_refl (or_introl eq_refl)).
  exact H.
Qed.

(** C1, amended. Results are collected in memory while the engine runs
    and are written to the store only after it has returned without
    error. When the engine fails, at initialisation or after having
    emitted events, processing the job adds no row to the results table;
    when it succeeds, the job is in the store and no statement is
    rejected, one row per emitted event is appended, in emission order. *)
Theorem results_are_stored_after_a_successful_run (cfg : config.Nuclei)
  (engine : nat -> list nucleiLib.NucleiSDKOptions -> list string -> nucleiLib.Run)
  (scan : model.Scan) (w : World) :
  (engine_fails
     (nucleiService.run_of cfg engine (model.set_Status "running" scan) w) ->
   scan_results (ScanWorker.processScan cfg engine scan w).2 = scan_results w) /\
  (forall events interrupted,
     nucleiService.run_of cfg engine (model.set_Status "running" scan) w =
       nucleiLib.Executes events interrupted None ->
     faults w = [] ->
     In (model.ID scan) (map row_id (scans w)) ->
     exists stored,
       scan_results (ScanWorker.processScan cfg engine scan w).2 =
         scan_results w ++ stored /\
       map row_key stored = map (event_key scan) (emitted events)).
Proof.
  pose proof (processScan_results cfg engine scan w) as H.
  split.
  - intros Hfail.
    destruct (nucleiService.run_of cfg engine _ w) as [err|events i [e|]];
      simpl in Hfail; [exact H | exact H | contradiction].
  - intros events i Hrun Hf Hin. rewrite Hrun in H.
    destruct H as (stored & H1 & H2). exists stored. auto.
Qed.

Lemma results_are_stored_after_a_successful_run_witness :
  scan_results (ScanWorker.processScan cfg0 engine_emits_then_fails scan_u1 w_one).2
    = scan_results w_one /\
  exists stored,
    scan_results (ScanWorker.processScan cfg0 engine_succeeds scan_u1 w_one).2 =
      scan_results w_one ++ stored /\
    map row_key stored =
      map (event_key scan_u1) (emitted [Some event_a; None; Some event_b]).
Proof.
  split.
  - apply (proj1 (results_are_stored_after_a_successful_run cfg0
                    engine_emits_then_fails scan_u1 w_one)).
    exact I.
  - apply (proj2 (results_are_stored_after_a_successful_run cfg0
                    engine_succeeds scan_u1 w_one)
             [Some event_a; None; Some event_b] false).
    + reflexivity.
    + reflexivity.
    + vm_compute. left. reflexivity.
Defined.

Lemma updated_status (scan : model.Scan) (now : Z) (rows : list ScanRow) :
  Forall (fun r => row_id r = model.ID scan -> row_status r = model.Status scan)
    (map (ScanRepository.update_row scan now) rows).
Proof.
  apply List.Forall_forall. intros r' Hin. apply in_map_iff in Hin.
  destruct Hin as (r & <- & _). unfold ScanRepository.update_row.
  destruct (String.eqb_spec (row_id r) (model.ID scan)) as [E|E]; simpl.
  - reflexivity.
  - intros E'. contradiction.
Qed.

(** C2 fails: the run of the pending job [u1] is cancelled (the cancel
    function of its context is called) and the engine returns "context
    canceled"; after the tick the job is Failed. *)
Lemma cancelled_run_ends_failed :
  ~ cancelled_run_ends_cancelled cfg0 engine_cancelled scan_u1 w_one /\
  map row_status
    (scans (ScanWorker.processPendingScans cfg0 engine_cancelled w_one).2)
  = ["failed"] /\
  cancelled (ScanWorker.processPendingScans cfg0 engine_cancelled w_one).2 = [0].
Proof.
  split; [|split; reflexivity].
  intros H.
  specialize (H [Some event_a] (Some "context canceled") eq_refl).
  apply List.Forall_forall with (x := touch "http://x" "failed" 6 row_u1) in H.
  - discriminate (H eq_refl).
  - vm_compute. left. reflexivity.
Qed.

(** C2, amended. The worker never writes Status=Cancelled: processing a
    job leaves each row with the status it had or with one of Running,
    Failed, Completed. When the run of a job is interrupted by a
    cancellation and no statement is rejected, the cancel function of the
    run has been called and the job ends Failed if the engine returned an
    error, Completed if it returned none. *)
Theorem cancelled_run_ends_failed_or_completed (cfg : config.Nuclei)
  (engine : nat -> list nucleiLib.NucleiSDKOptions -> list string -> nucleiLib.Run)
  (scan : model.Scan) (w : World) :
  Forall2 (fun r r' => row_id r' = row_id r /\
                       (row_status r' = row_status r \/
                        In (row_status r') ["running"; "failed"; "completed"]))
    (scans w) (scans (ScanWorker.processScan cfg engine scan w).2) /\
  (forall events err,
     nucleiService.run_of cfg engine (model.set_Status "running" scan) w =
       nucleiLib.Executes events true err ->
     faults w = [] ->
     cancelled (ScanWorker.processScan cfg engine scan w).2 =
       cancelled w ++ [next_ctx w] /\
     Forall (fun r => row_id r = model.ID scan ->
                      row_status r = match err with
                                     | Some _ => model.ScanStatusFailed
                                     | None => model.ScanStatusCompleted
                                     end)
       (scans (ScanWorker.processScan cfg engine scan w).2)).
Proof.
  split.
  { destruct (processScan_frame cfg engine scan w) as (Hw & _).
    exact (written_status _ _ _ Hw). }
  intros events err Hrun Hf.
  rewrite processScan_eq. cbv zeta.
  set (s1 := model.set_Status "running" scan) in *.
  pose proof (Update_frame s1 w) as (_ & _ & U3 & U4 & U5 & U6 & _ & U8).
  cbv zeta in *.
  destruct (no_faults_sent w Hf) as [Hrej _]. rewrite Hrej in U8.
  rewrite U8. rewrite Hf in U6. simpl in U6.
  set (w1 := (ScanRepository.Update s1 w).2) in *.
  rewrite <- (run_of_congr cfg engine s1 w1 w U5 U4) in Hrun.
  destruct (StartScan_executes _ _ _ _ _ _ _ Hrun) as (rs & t & _ & _ & Hst).
  rewrite Hst. cbn [fst snd].
  set (w2 := set_cancels _ _).
  assert (F2 : faults w2 = []) by exact U6.
  assert (C2 : cancelled w2 = cancelled w ++ [next_ctx w])
    by (unfold w2; simpl; now rewrite U3, U4).
  clearbody w2. clear Hst.
  destruct err as [e|]; cbn [fst snd].
  - match goal with
    | |- context [ScanRepository.Update ?s w2] =>
        pose proof (Update_frame s w2) as (_ & _ & V3 & _ & _ & _ & V7 & _);
        pose proof (updated_status s (clock w2) (scans w2)) as Hst
    end.
    cbv zeta in V3, V7.
    destruct (no_faults_sent w2 F2) as [Hrej2 _]. rewrite Hrej2 in V7.
    split; [now rewrite V3|]. rewrite V7. exact Hst.
  - pose proof (storeResults_frame rs w2)
      as (_ & _ & T3 & _ & _ & _ & T7 & _).
    specialize (T7 F2).
    set (w3 := (ScanWorker.storeResults rs w2).2) in *.
    match goal with
    | |- context [ScanRepository.Update ?s w3] =>
        pose proof (Update_frame s w3) as (_ & _ & V3 & _ & _ & _ & V7 & _);
        pose proof (updated_status s (clock w3) (scans w3)) as Hst
    end.
    cbv zeta in V3, V7.
    destruct (no_faults_sent w3 T7) as [Hrej3 _]. rewrite Hrej3 in V7.
    split; [now rewrite V3, T3|]. rewrite V7. exact Hst.
Qed.

Lemma cancelled_run_ends_failed_or_completed_witness :
  cancelled (ScanWorker.processScan cfg0 engine_cancelled scan_u1 w_one).2 =
    cancelled w_one ++ [next_ctx w_one] /\
  Forall (fun r => row_id r = model.ID scan_u1 ->
                   row_status r = model.ScanStatusFailed)
    (scans (ScanWorker.processScan cfg0 engine_cancelled scan_u1 w_one).2).
Proof.
  apply (proj2 (cancelled_run_ends_failed_or_completed cfg0 engine_cancelled
                  scan_u1 w_one)
           [Some event_a] (Some "context canceled")).
  - reflexivity.
  - reflexivity.
Defined.

(** * Further properties of the code *)

(** ** Statuses *)

(** X1. [ParseScanStatus] maps every string to one of the five statuses:
    each of the five to itself, and every other string to Pending; it is
    therefore idempotent, and it fixes exactly the five statuses. *)
Theorem ParseScanStatus_range (s : string) :
  In (model.ParseScanStatus s) statuses /\
  model.ParseScanStatus (model.ParseScanStatus s) = model.ParseScanStatus s /\
  (model.ParseScanStatus s = s <-> In s statuses) /\
  (In s statuses \/ model.ParseScanStatus s = model.ScanStatusPending).
Proof.
  unfold model.ParseScanStatus.
  destruct (String.eqb_spec s "pending") as [->|H1];
    [simpl; intuition auto|].
  destruct (String.eqb_spec s "running") as [->|H2];
    [simpl; intuition auto|].
  destruct (String.eqb_spec s "completed") as [->|H3];
    [simpl; intuition auto|].
  destruct (String.eqb_spec s "failed") as [->|H4];
    [simpl; intuition auto|].
  destruct (String.eqb_spec s "cancelled") as [->|H5];
    [simpl; intuition auto|].
  simpl. split; [auto|]. split; [reflexivity|]. split; [|auto].
  unfold model.ScanStatusPending, model.ScanStatusRunning,
    model.ScanStatusCompleted, model.ScanStatusFailed,
    model.ScanStatusCancelled.
  split.
  - intros E. symmetry in E. contradiction.
  - intros [E|[E|[E|[E|[E|[]]]]]]; symmetry in E; contradiction.
Qed.

(** ** Reading and writing scan rows *)

Lemma find_id_in (id : string) (rows : list ScanRow) :
  match List.find (fun r => String.eqb (row_id r) id) rows with
  | Some r => In r rows /\ row_id r = id
  | None => ~ In id (map row_id rows)
  end.
Proof.
  destruct (find _ rows) as [r|] eqn:Hf.
  - apply find_some in Hf. destruct Hf as [Hin He].
    split; [exact Hin | now apply String.eqb_eq].
  - intros Hin. apply in_map_iff in Hin. destruct Hin as (r & Hr & Hin).
    pose proof (find_none _ _ Hf r Hin) as Hn. simpl in Hn.
    apply String.eqb_neq in Hn. contradiction.
Qed.

Lemma find_after_absent (id : string) (rows rows' : list ScanRow) :
  ~ In id (map row_id rows) ->
  List.find (fun r => String.eqb (row_id r) id) (rows ++ rows') =
  List.find (fun r => String.eqb (row_id r) id) rows'.
Proof.
  induction rows as [|r rows IH]; simpl; intros H; [reflexivity|].
  destruct (String.eqb_spec (row_id r) id) as [E|E].
  - exfalso. apply H. now left.
  - apply IH. intros Hin. apply H. now right.
Qed.

Lemma find_updated (scan : model.Scan) (now : Z) (id : string)
  (rows : list ScanRow) :
  List.find (fun r => String.eqb (row_id r) id)
    (map (ScanRepository.update_row scan now) rows) =
  option_map (ScanRepository.update_row scan now)
    (List.find (fun r => String.eqb (row_id r) id) rows).
Proof.
  induction rows as [|r rows IH]; simpl; [reflexivity|].
  assert (Hid : row_id (ScanRepository.update_row scan now r) = row_id r).
  { unfold ScanRepository.update_row. now destruct (String.eqb _ _). }
  rewrite Hid. destruct (String.eqb (row_id r) id); [reflexivity | exact IH].
Qed.

(** X2. [Get] with an accepted statement answers by membership: for an id
    in the table it returns, without error, a scan with that id; for any
    other id it returns no scan and [ErrNotFound]. Either way it leaves
    both tables as they were. *)
Theorem Get_answers_by_membership (id : string) (w : World) :
  rejected w = false ->
  match (ScanRepository.Get id w).1 with
  | (Some s, None) => In id (map row_id (scans w)) /\ model.ID s = id
  | (None, Some e) =>
      ~ In id (map row_id (scans w)) /\ e = ScanRepository.ErrNotFound
  | _ => False
  end /\
  scans (ScanRepository.Get id w).2 = scans w /\
  scan_results (ScanRepository.Get id w).2 = scan_results w.
Proof.
  intros Hrej. rewrite Get_eq, Hrej. simpl.
  pose proof (sent_frame w) as (Hsc & Hsr & _).
  pose proof (find_id_in id (scans w)) as Hf.
  destruct (find _ (scans w)) as [r|]; simpl.
  - destruct Hf as [Hin Hid]. repeat split; auto.
    apply in_map_iff. now exists r.
  - auto.
Qed.

Lemma Get_answers_by_membership_witness :
  rejected w_one = false /\
  match (ScanRepository.Get "u1" w_one).1 with
  | (Some s, None) => In "u1" (map row_id (scans w_one)) /\ model.ID s = "u1"
  | (None, Some e) =>
      ~ In "u1" (map row_id (scans w_one)) /\ e = ScanRepository.ErrNotFound
  | _ => False
  end /\
  scans (ScanRepository.Get "u1" w_one).2 = scans w_one /\
  scan_results (ScanRepository.Get "u1" w_one).2 = scan_results w_one.
Proof.
  split; [reflexivity|].
  apply (Get_answers_by_membership "u1" w_one). reflexivity.
Defined.

(** X3. Create then Get: when a scan with an id not yet in the table is
    created and both statements are accepted, [Get] on that id returns a
    scan with the same id and target, the status read back through
    [ParseScanStatus], the instant of the insert as creation and update
    time, and, whatever the created scan held, no template ids, no tags
    and the fixed options. *)
Theorem Create_then_Get (scan : model.Scan) (w : World) :
  rejected w = false ->
  ~ In (model.ID scan) (map row_id (scans w)) ->
  rejected (ScanRepository.Create scan w).2 = false ->
  (ScanRepository.Create scan w).1 = None /\
  exists got,
    (ScanRepository.Get (model.ID scan) (ScanRepository.Create scan w).2).1 =
      (Some got, None) /\
    model.ID got = model.ID scan /\
    model.Target got = model.Target scan /\
    model.Status got = model.ParseScanStatus (model.Status scan) /\
    model.CreatedAt got = clock w /\
    model.UpdatedAt got = clock w /\
    has_defaults got.
Proof.
  intros Hrej Hfresh Hrej2. rewrite Get_eq, Hrej2. revert Hrej2.
  rewrite Create_eq. cbv zeta. rewrite Hrej.
  rewrite (has_id_false _ _ Hfresh). simpl. intros _.
  split; [reflexivity|].
  rewrite (find_after_absent _ _ _ Hfresh). simpl.
  rewrite String.eqb_refl. eexists. split; [reflexivity|].
  simpl. repeat split.
Qed.

Lemma Create_then_Get_witness :
  rejected w_one = false /\
  ~ In (model.ID scan_zero_rate_u2) (map row_id (scans w_one)) /\
  rejected (ScanRepository.Create scan_zero_rate_u2 w_one).2 = false /\
  (ScanRepository.Create scan_zero_rate_u2 w_one).1 = None /\
  exists got,
    (ScanRepository.Get (model.ID scan_zero_rate_u2)
       (ScanRepository.Create scan_zero_rate_u2 w_one).2).1 = (Some got, None) /\
    model.ID got = model.ID scan_zero_rate_u2 /\
    model.Target got = model.Target scan_zero_rate_u2 /\
    model.Status got = model.ParseScanStatus (model.Status scan_zero_rate_u2) /\
    model.CreatedAt got = clock w_one /\
    model.UpdatedAt got = clock w_one /\
    has_defaults got.
Proof.
  assert (Hfresh : ~ In (model.ID scan_zero_rate_u2) (map row_id (scans w_one))).
  { simpl. intros [H|[]]. discriminate H. }
  split; [reflexivity|]. split; [exact Hfresh|]. split; [reflexivity|].
  apply (Create_then_Get scan_zero_rate_u2 w_one); [reflexivity | exact Hfresh |
                                                    reflexivity].
Defined.

(** X4. [Create] on an id that is already in the table returns an error
    and leaves both tables as they were, whether the statement reaches the
    server or not: the primary key refuses the second row. *)
Theorem Create_refuses_duplicate_id (scan : model.Scan) (w : World) :
  In (model.ID scan) (map row_id (scans w)) ->
  (ScanRepository.Create scan w).1 <> None /\
  scans (ScanRepository.Create scan w).2 = scans w /\
  scan_results (ScanRepository.Create scan w).2 = scan_results w.
Proof.
  intros Hin. rewrite Create_eq. cbv zeta.
  match goal with |- context [sent ?x] => pose proof (sent_frame x) as (Hsc & Hsr & _) end.
  simpl in Hsc, Hsr. rewrite (has_id_true _ _ Hin).
  destruct (rejected w); simpl; repeat split; auto; discriminate.
Qed.

Lemma Create_refuses_duplicate_id_witness :
  In (model.ID scan_u1) (map row_id (scans w_one)) /\
  (ScanRepository.Create scan_u1 w_one).1 <> None /\
  scans (ScanRepository.Create scan_u1 w_one).2 = scans w_one /\
  scan_results (ScanRepository.Create scan_u1 w_one).2 = scan_results w_one.
Proof.
  assert (Hin : In (model.ID scan_u1) (map row_id (scans w_one)))
    by (vm_compute; left; reflexivity).
  split; [exact Hin|].
  apply (Create_refuses_duplicate_id scan_u1 w_one Hin).
Defined.

Lemma update_row_absent (scan : model.Scan) (now : Z) (rows : list ScanRow) :
  ~ In (model.ID scan) (map row_id rows) ->
  map (ScanRepository.update_row scan now) rows = rows.
Proof.
  induction rows as [|r rows IH]; simpl; intros H; [reflexivity|].
  rewrite IH by (intros Hin; apply H; now right).
  unfold ScanRepository.update_row.
  destruct (String.eqb_spec (row_id r) (model.ID scan)) as [E|E];
    [|reflexivity].
  exfalso. apply H. now left.
Qed.

(** X5. [Update] for a scan whose id is not in the table changes no row
    and still reports success: its only error is a rejected statement. An
    update of a missing job is not told apart from one that took effect. *)
Theorem Update_of_missing_id_is_silent (scan : model.Scan) (w : World) :
  ~ In (model.ID scan) (map row_id (scans w)) ->
  scans (ScanRepository.Update scan w).2 = scans w /\
  scan_results (ScanRepository.Update scan w).2 = scan_results w /\
  (ScanRepository.Update scan w).1 =
    (if rejected w then Some ScanRepository.driver_error else None).
Proof.
  intros Habs.
  pose proof (Update_frame scan w) as (U1 & _ & _ & _ & _ & _ & U7 & U8).
  cbv zeta in *. rewrite U7, U8, U1.
  rewrite (update_row_absent _ _ _ Habs). now destruct (rejected w).
Qed.

Lemma Update_of_missing_id_is_silent_witness :
  ~ In (model.ID scan_zero_rate_u2) (map row_id (scans w_one)) /\
  scans (ScanRepository.Update scan_zero_rate_u2 w_one).2 = scans w_one /\
  scan_results (ScanRepository.Update scan_zero_rate_u2 w_one).2 =
    scan_results w_one /\
  (ScanRepository.Update scan_zero_rate_u2 w_one).1 =
    (if rejected w_one then Some ScanRepository.driver_error else None).
Proof.
  assert (Habs : ~ In (model.ID scan_zero_rate_u2) (map row_id (scans w_one))).
  { simpl. intros [H|[]]. discriminate H. }
  split; [exact Habs|].
  apply (Update_of_missing_id_is_silent scan_zero_rate_u2 w_one Habs).
Defined.

(** X6. Update then Get: when a scan whose id is in the table is updated
    and both statements are accepted, [Get] on that id returns the target
    and (through [ParseScanStatus]) the status that were written, the
    instant of the update as update time and the creation time the row
    had; the error set on the scan is not among what comes back. *)
Theorem Update_then_Get (scan : model.Scan) (w : World) :
  rejected w = false ->
  In (model.ID scan) (map row_id (scans w)) ->
  rejected (ScanRepository.Update scan w).2 = false ->
  exists got r,
    first_row (model.ID scan) w = Some r /\
    (ScanRepository.Get (model.ID scan) (ScanRepository.Update scan w).2).1 =
      (Some got, None) /\
    model.ID got = model.ID scan /\
    model.Target got = model.Target scan /\
    model.Status got = model.ParseScanStatus (model.Status scan) /\
    model.UpdatedAt got = clock w /\
    model.CreatedAt got = row_created_at r /\
    model.Error got = "".
Proof.
  intros Hrej Hin Hrej2. rewrite Get_eq, Hrej2.
  pose proof (Update_frame scan w) as (_ & _ & _ & _ & _ & _ & U7 & _).
  cbv zeta in U7. rewrite Hrej in U7. rewrite U7, find_updated.
  unfold first_row. pose proof (find_id_in (model.ID scan) (scans w)) as Hf.
  destruct (find _ (scans w)) as [r|]; [|contradiction].
  destruct Hf as [_ Hid]. simpl.
  unfold ScanRepository.update_row. rewrite Hid, String.eqb_refl.
  eexists. exists r. split; [reflexivity|]. split; [reflexivity|].
  simpl. repeat split.
Qed.

Lemma Update_then_Get_witness :
  rejected w_one = false /\
  In (model.ID scan_u1) (map row_id (scans w_one)) /\
  rejected (ScanRepository.Update scan_u1 w_one).2 = false /\
  exists got r,
    first_row (model.ID scan_u1) w_one = Some r /\
    (ScanRepository.Get (model.ID scan_u1)
       (ScanRepository.Update scan_u1 w_one).2).1 = (Some got, None) /\
    model.ID got = model.ID scan_u1 /\
    model.Target got = model.Target scan_u1 /\
    model.Status got = model.ParseScanStatus (model.Status scan_u1) /\
    model.UpdatedAt got = clock w_one /\
    model.CreatedAt got = row_created_at r /\
    model.Error got = "".
Proof.
  assert (Hin : In (model.ID scan_u1) (map row_id (scans w_one)))
    by (vm_compute; left; reflexivity).
  split; [reflexivity|]. split; [exact Hin|]. split; [reflexivity|].
  apply (Update_then_Get scan_u1 w_one); [reflexivity | exact Hin | reflexivity].
Defined.

(** X7. [Delete] with an accepted statement returns no error, removes
    exactly the rows with the given id and, with them, exactly the results
    of that scan; afterwards the id is in neither table. An id that was
    not there is deleted without error too. *)
Theorem Delete_removes_scan_and_results (id : string) (w : World) :
  rejected w = false ->
  (ScanRepository.Delete id w).1 = None /\
  (forall r, In r (scans (ScanRepository.Delete id w).2) <->
             In r (scans w) /\ row_id r <> id) /\
  (forall x, In x (scan_results (ScanRepository.Delete id w).2) <->
             In x (scan_results w) /\ res_scan_id x <> id) /\
  ~ In id (map row_id (scans (ScanRepository.Delete id w).2)) /\
  ~ In id (map res_scan_id (scan_results (ScanRepository.Delete id w).2)).
Proof.
  intros Hrej. rewrite Delete_eq, Hrej. simpl.
  assert (Hs : forall r, In r (List.filter
                   (fun r => negb (String.eqb (row_id r) id)) (scans w)) <->
                 In r (scans w) /\ row_id r <> id).
  { intros r. rewrite filter_In, negb_true_iff, String.eqb_neq. tauto. }
  assert (Hr : forall x, In x (List.filter
                   (fun r => negb (String.eqb (res_scan_id r) id))
                   (scan_results w)) <->
                 In x (scan_results w) /\ res_scan_id x <> id).
  { intros x. rewrite filter_In, negb_true_iff, String.eqb_neq. tauto. }
  split; [reflexivity|]. split; [exact Hs|]. split; [exact Hr|]. split.
  - intros Hin. apply in_map_iff in Hin. destruct Hin as (r & Hid & Hin).
    apply Hs in Hin. tauto.
  - intros Hin. apply in_map_iff in Hin. destruct Hin as (x & Hid & Hin).
    apply Hr in Hin. tauto.
Qed.

Lemma Delete_removes_scan_and_results_witness :
  rejected w_done = false /\
  (ScanRepository.Delete "u1" w_done).1 = None /\
  (forall r, In r (scans (ScanRepository.Delete "u1" w_done).2) <->
             In r (scans w_done) /\ row_id r <> "u1") /\
  (forall x, In x (scan_results (ScanRepository.Delete "u1" w_done).2) <->
             In x (scan_results w_done) /\ res_scan_id x <> "u1") /\
  ~ In "u1" (map row_id (scans (ScanRepository.Delete "u1" w_done).2)) /\
  ~ In "u1" (map res_scan_id (scan_results (ScanRepository.Delete "u1" w_done).2)).
Proof.
  assert (Hrej : rejected w_done = false) by (vm_compute; reflexivity).
  split; [exact Hrej|].
  apply (Delete_removes_scan_and_results "u1" w_done Hrej).
Defined.

(** ** The registry, beyond one id *)

Lemma CancelScan_eq (id : string) (w : World) :
  nucleiService.CancelScan id w =
  match cancels w !! id with
  | Some c => (None, set_cancels (delete id (cancels w))
                       (set_cancelled (cancelled w ++ [c]) w))
  | None => (Some ("no running scan found with ID " +:+ id), w)
  end.
Proof.
  destruct (cancels w !! id) as [c|] eqn:H.
  - now apply CancelScan_present.
  - now apply CancelScan_absent.
Qed.

(** X8. [CancelScan] touches nothing but the registry entry of its id: the
    two tables, the trace of engine calls and the fault schedule are as
    before, the cancel functions registered under other ids stay, and at
    most the one cancel function registered under the id is called. In
    particular cancelling a job that is not running changes no job. *)
Theorem CancelScan_only_touches_its_id (id : string) (w : World) :
  scans (nucleiService.CancelScan id w).2 = scans w /\
  scan_results (nucleiService.CancelScan id w).2 = scan_results w /\
  nuclei_calls (nucleiService.CancelScan id w).2 = nuclei_calls w /\
  faults (nucleiService.CancelScan id w).2 = faults w /\
  cancels (nucleiService.CancelScan id w).2 = delete id (cancels w) /\
  cancelled (nucleiService.CancelScan id w).2 =
    cancelled w ++ match cancels w !! id with Some c => [c] | None => [] end.
Proof.
  rewrite CancelScan_eq. destruct (cancels w !! id) as [c|] eqn:H; simpl.
  - auto 10.
  - rewrite app_nil_r, (delete_id _ _ H). auto 10.
Qed.

(** X9. A call of the adapter's [StartScan] leaves the store alone and
    works on one registry entry: both tables and the fault schedule are as
    before, the cancel function registered for any other scan is still
    registered afterwards, and the only cancel function that can have been
    called during the run is the one of the context created for it. *)
Theorem StartScan_only_touches_its_id (cfg : config.Nuclei)
  (engine : nat -> list nucleiLib.NucleiSDKOptions -> list string -> nucleiLib.Run)
  (scan : model.Scan) (w : World) (j : string) :
  j <> model.ID scan ->
  cancels (nucleiService.StartScan cfg engine scan w).2 !! j = cancels w !! j /\
  (cancelled (nucleiService.StartScan cfg engine scan w).2 = cancelled w \/
   cancelled (nucleiService.StartScan cfg engine scan w).2 =
     cancelled w ++ [next_ctx w]) /\
  scans (nucleiService.StartScan cfg engine scan w).2 = scans w /\
  scan_results (nucleiService.StartScan cfg engine scan w).2 = scan_results w /\
  faults (nucleiService.StartScan cfg engine scan w).2 = faults w.
Proof.
  intros Hne.
  destruct (nucleiService.run_of cfg engine scan w) as [err|events i err] eqn:H.
  - rewrite (StartScan_init_fails _ _ _ _ _ H). simpl.
    rewrite lookup_insert_ne by congruence. auto 10.
  - destruct (StartScan_executes _ _ _ _ _ _ _ H) as (rs & t & _ & _ & ->).
    simpl. rewrite lookup_delete_ne by congruence.
    destruct i; auto 10.
Qed.

Lemma StartScan_only_touches_its_id_witness :
  "u9" <> model.ID scan_u1 /\
  cancels (nucleiService.StartScan cfg0 engine_cancelled scan_u1 w_one).2 !! "u9"
    = cancels w_one !! "u9" /\
  (cancelled (nucleiService.StartScan cfg0 engine_cancelled scan_u1 w_one).2 =
     cancelled w_one \/
   cancelled (nucleiService.StartScan cfg0 engine_cancelled scan_u1 w_one).2 =
     cancelled w_one ++ [next_ctx w_one]) /\
  scans (nucleiService.StartScan cfg0 engine_cancelled scan_u1 w_one).2 =
    scans w_one /\
  scan_results (nucleiService.StartScan cfg0 engine_cancelled scan_u1 w_one).2 =
    scan_results w_one /\
  faults (nucleiService.StartScan cfg0 engine_cancelled scan_u1 w_one).2 =
    faults w_one.
Proof.
  assert (Hne : "u9" <> model.ID scan_u1) by discriminate.
  split; [exact Hne|].
  apply (StartScan_only_touches_its_id cfg0 engine_cancelled scan_u1 w_one
           "u9" Hne).
Defined.

(** X10. What the adapter's [StartScan] returns. When the engine executes
    and returns no error, the call returns no error and one result per
    non-nil event, in the order of emission, each carrying the id of the
    scan, the template id and the host of its event; nil events are
    skipped. When the engine cannot be built or its execution returns an
    error, the call returns an error and no result at all. *)
Theorem StartScan_returns_all_or_nothing (cfg : config.Nuclei)
  (engine : nat -> list nucleiLib.NucleiSDKOptions -> list string -> nucleiLib.Run)
  (scan : model.Scan) (w : World) :
  match nucleiService.run_of cfg engine scan w with
  | nucleiLib.Executes events _ None =>
      (nucleiService.StartScan cfg engine scan w).1.2 = None /\
      map result_key (nucleiService.StartScan cfg engine scan w).1.1 =
        map (event_key scan) (emitted events) /\
      length (nucleiService.StartScan cfg engine scan w).1.1 =
        length (emitted events)
  | _ =>
      (nucleiService.StartScan cfg engine scan w).1.1 = [] /\
      (nucleiService.StartScan cfg engine scan w).1.2 <> None
  end.
Proof.
  pose proof (StartScan_outcome cfg engine scan w) as (_ & _ & _ & _ & H).
  destruct (nucleiService.run_of cfg engine scan w) as [err|events i [e|]].
  - rewrite H. simpl. split; [reflexivity | discriminate].
  - rewrite H. simpl. split; [reflexivity | discriminate].
  - destruct H as (Hn & Hk & _). split; [exact Hn|]. split; [exact Hk|].
    apply (f_equal (@length _)) in Hk. now rewrite !length_map in Hk.
Qed.

(** ** Submission and deletion *)

(** X11. Submission is synchronous and runs nothing: [scanService.StartScan]
    makes no engine call, registers no cancel function and writes no
    result; whatever its outcome, the scans table afterwards is the old
    one, or the old one followed by one new row. *)
Theorem submit_runs_nothing (uuid : string) (input : model.StartScanInput)
  (w : World) :
  nuclei_calls (scanService.StartScan uuid input w).2 = nuclei_calls w /\
  cancels (scanService.StartScan uuid input w).2 = cancels w /\
  cancelled (scanService.StartScan uuid input w).2 = cancelled w /\
  scan_results (scanService.StartScan uuid input w).2 = scan_results w /\
  (scans (scanService.StartScan uuid input w).2 = scans w \/
   exists r, scans (scanService.StartScan uuid input w).2 = scans w ++ [r] /\
             row_id r = uuid /\ row_status r = model.ScanStatusPending).
Proof.
  rewrite submit_eq. cbv zeta. rewrite Create_eq. cbv zeta.
  rewrite rejected_set_clock.
  match goal with
  | |- context [sent ?x] =>
      pose proof (sent_frame x) as (Hsc & Hsr & Hc & Hcd & _ & _ & Hnc & _)
  end.
  simpl in Hsc, Hsr, Hc, Hcd, Hnc.
  destruct (rejected w); simpl; [auto 10|].
  destruct (existsb _ (scans w)); simpl; [auto 10|].
  repeat (split; [assumption|]). right. eexists. split; [reflexivity|].
  split; reflexivity.
Qed.

Lemma parse_is_running (s : string) :
  String.eqb (model.ParseScanStatus s) model.ScanStatusRunning =
  String.eqb s "running".
Proof.
  unfold model.ParseScanStatus.
  destruct (String.eqb_spec s "pending") as [->|H1]; [reflexivity|].
  destruct (String.eqb_spec s "running") as [->|H2]; [reflexivity|].
  destruct (String.eqb_spec s "completed") as [->|H3]; [reflexivity|].
  destruct (String.eqb_spec s "failed") as [->|H4]; [reflexivity|].
  destruct (String.eqb_spec s "cancelled") as [->|H5]; reflexivity.
Qed.

Lemma DeleteScan_eq (id : string) (w : World) :
  scanService.DeleteScan id w =
  if rejected w then ((false, Some ScanRepository.driver_error), sent w)
  else match first_row id w with
       | None => ((false, Some ScanRepository.ErrNotFound), sent w)
       | Some r =>
           let w2 := if String.eqb (row_status r) "running"
                     then (nucleiService.CancelScan id (sent w)).2
                     else sent w in
           (match (ScanRepository.Delete id w2).1 with
            | Some e => (false, Some e)
            | None => (true, None)
            end, (ScanRepository.Delete id w2).2)
       end.
Proof.
  unfold scanService.DeleteScan, bind, first_row. rewrite Get_eq.
  destruct (rejected w); simpl; [reflexivity|].
  destruct (find _ (scans w)) as [r|]; simpl; [|reflexivity].
  rewrite parse_is_running.
  destruct (String.eqb (row_status r) "running"); unfold ret.
  - destruct (nucleiService.CancelScan id (sent w)) as [e w2]. simpl.
    now destruct (ScanRepository.Delete id w2) as [[e2|] w3].
  - now destruct (ScanRepository.Delete id (sent w)) as [[e2|] w3].
Qed.

(** X12. [DeleteScan] on an id that is not in the table, the lookup being
    accepted, returns [false] with [ErrNotFound] and changes neither the
    tables nor the registry: no deletion and no cancellation is tried. *)
Theorem DeleteScan_of_unknown_id (id : string) (w : World) :
  rejected w = false ->
  ~ In id (map row_id (scans w)) ->
  (scanService.DeleteScan id w).1 = (false, Some ScanRepository.ErrNotFound) /\
  scans (scanService.DeleteScan id w).2 = scans w /\
  scan_results (scanService.DeleteScan id w).2 = scan_results w /\
  cancels (scanService.DeleteScan id w).2 = cancels w /\
  cancelled (scanService.DeleteScan id w).2 = cancelled w.
Proof.
  intros Hrej Habs. rewrite DeleteScan_eq, Hrej. unfold first_row.
  pose proof (find_id_in id (scans w)) as Hf.
  destruct (find _ (scans w)) as [r|].
  - destruct Hf as [Hin Hid]. exfalso. apply Habs. apply in_map_iff.
    now exists r.
  - pose proof (sent_frame w) as (Hsc & Hsr & Hc & Hcd & _). simpl. auto.
Qed.

Lemma DeleteScan_of_unknown_id_witness :
  rejected w_one = false /\
  ~ In "u2" (map row_id (scans w_one)) /\
  (scanService.DeleteScan "u2" w_one).1 =
    (false, Some ScanRepository.ErrNotFound) /\
  scans (scanService.DeleteScan "u2" w_one).2 = scans w_one /\
  scan_results (scanService.DeleteScan "u2" w_one).2 = scan_results w_one /\
  cancels (scanService.DeleteScan "u2" w_one).2 = cancels w_one /\
  cancelled (scanService.DeleteScan "u2" w_one).2 = cancelled w_one.
Proof.
  assert (Habs : ~ In "u2" (map row_id (scans w_one))).
  { simpl. intros [H|[]]. discriminate H. }
  split; [reflexivity|]. split; [exact Habs|].
  apply (DeleteScan_of_unknown_id "u2" w_one); [reflexivity | exact Habs].
Defined.

(** X13. [DeleteScan] on an id that is in the table, no statement being
    rejected, returns [true] without error; the rows with that id and the
    results of that scan are gone and all others are kept. If the stored
    status is "running" the cancel function registered under the id, if
    there is one, is called and removed, and the deletion goes on when
    there is none; for any other status the registry is not touched. *)
Theorem DeleteScan_of_known_id (id : string) (w : World) :
  faults w = [] ->
  In id (map row_id (scans w)) ->
  (scanService.DeleteScan id w).1 = (true, None) /\
  scans (scanService.DeleteScan id w).2 =
    List.filter (fun r => negb (String.eqb (row_id r) id)) (scans w) /\
  scan_results (scanService.DeleteScan id w).2 =
    List.filter (fun x => negb (String.eqb (res_scan_id x) id)) (scan_results w) /\
  exists r, first_row id w = Some r /\
    if String.eqb (row_status r) "running"
    then cancels (scanService.DeleteScan id w).2 = delete id (cancels w) /\
         cancelled (scanService.DeleteScan id w).2 =
           cancelled w ++ match cancels w !! id with
                          | Some c => [c]
                          | None => []
                          end
    else cancels (scanService.DeleteScan id w).2 = cancels w /\
         cancelled (scanService.DeleteScan id w).2 = cancelled w.
Proof.
  intros Hf Hin. rewrite DeleteScan_eq.
  destruct (no_faults_sent w Hf) as [Hrej Hsent]. rewrite Hrej, Hsent.
  unfold first_row. pose proof (find_id_in id (scans w)) as Hfind.
  destruct (find _ (scans w)) as [r|]; [|contradiction].
  cbv zeta.
  assert (HC : scans (nucleiService.CancelScan id w).2 = scans w /\
               scan_results (nucleiService.CancelScan id w).2 = scan_results w /\
               faults (nucleiService.CancelScan id w).2 = faults w /\
               cancels (nucleiService.CancelScan id w).2 = delete id (cancels w) /\
               cancelled (nucleiService.CancelScan id w).2 =
                 cancelled w ++ match cancels w !! id with
                                | Some c => [c]
                                | None => []
                                end).
  { rewrite CancelScan_eq. destruct (cancels w !! id) as [c|] eqn:H; simpl.
    - auto 10.
    - rewrite app_nil_r, (delete_id _ _ H). auto 10. }
  destruct HC as (C1 & C2 & C4 & C5 & C6).
  destruct (String.eqb (row_status r) "running") eqn:Hst.
  - set (w2 := (nucleiService.CancelScan id w).2) in *.
    assert (Hf2 : faults w2 = []) by now rewrite C4.
    destruct (no_faults_sent w2 Hf2) as [Hrej2 Hsent2].
    rewrite Delete_eq, Hrej2, Hsent2. simpl.
    rewrite C1, C2. repeat split. exists r. rewrite Hst. auto.
  - rewrite Delete_eq, Hrej, Hsent. simpl. repeat split. exists r.
    rewrite Hst. auto.
Qed.

Lemma DeleteScan_of_known_id_witness :
  faults w_done = [] /\
  In "u1" (map row_id (scans w_done)) /\
  (scanService.DeleteScan "u1" w_done).1 = (true, None) /\
  scans (scanService.DeleteScan "u1" w_done).2 =
    List.filter (fun r => negb (String.eqb (row_id r) "u1")) (scans w_done) /\
  scan_results (scanService.DeleteScan "u1" w_done).2 =
    List.filter (fun x => negb (String.eqb (res_scan_id x) "u1"))
      (scan_results w_done) /\
  exists r, first_row "u1" w_done = Some r /\
    if String.eqb (row_status r) "running"
    then cancels (scanService.DeleteScan "u1" w_done).2 =
           delete "u1" (cancels w_done) /\
         cancelled (scanService.DeleteScan "u1" w_done).2 =
           cancelled w_done ++ match cancels w_done !! "u1" with
                               | Some c => [c]
                               | None => []
                               end
    else cancels (scanService.DeleteScan "u1" w_done).2 = cancels w_done /\
         cancelled (scanService.DeleteScan "u1" w_done).2 = cancelled w_done.
Proof.
  assert (Hf : faults w_done = []) by (vm_compute; reflexivity).
  assert (Hin : In "u1" (map row_id (scans w_done)))
    by (vm_compute; left; reflexivity).
  split; [exact Hf|]. split; [exact Hin|].
  apply (DeleteScan_of_known_id "u1" w_done Hf Hin).
Defined.

(** ** The worker *)

(** X14. When the update to "running" is rejected the job is skipped for
    this tick: the engine is not called for it, no cancel function is
    registered, and its row, like every other row and every result, is
    left as it was, so it is still listed as pending next time. *)
Theorem processScan_skips_when_update_fails (cfg : config.Nuclei)
  (engine : nat -> list nucleiLib.NucleiSDKOptions -> list string -> nucleiLib.Run)
  (scan : model.Scan) (w : World) :
  rejected w = true ->
  scans (ScanWorker.processScan cfg engine scan w).2 = scans w /\
  scan_results (ScanWorker.processScan cfg engine scan w).2 = scan_results w /\
  nuclei_calls (ScanWorker.processScan cfg engine scan w).2 = nuclei_calls w /\
  cancels (ScanWorker.processScan cfg engine scan w).2 = cancels w /\
  cancelled (ScanWorker.processScan cfg engine scan w).2 = cancelled w.
Proof.
  intros Hrej. rewrite processScan_eq. cbv zeta.
  pose proof (Update_frame (model.set_Status "running" scan) w)
    as (U1 & U2 & U3 & _ & U5 & _ & U7 & U8).
  cbv zeta in *. rewrite Hrej in U7, U8. rewrite U8. simpl. auto.
Qed.

Lemma processScan_skips_when_update_fails_witness :
  rejected w_one_faulty = true /\
  scans (ScanWorker.processScan cfg0 engine_succeeds scan_u1 w_one_faulty).2 =
    scans w_one_faulty /\
  scan_results (ScanWorker.processScan cfg0 engine_succeeds scan_u1 w_one_faulty).2
    = scan_results w_one_faulty /\
  nuclei_calls (ScanWorker.processScan cfg0 engine_succeeds scan_u1 w_one_faulty).2
    = nuclei_calls w_one_faulty /\
  cancels (ScanWorker.processScan cfg0 engine_succeeds scan_u1 w_one_faulty).2 =
    cancels w_one_faulty /\
  cancelled (ScanWorker.processScan cfg0 engine_succeeds scan_u1 w_one_faulty).2 =
    cancelled w_one_faulty.
Proof.
  split; [reflexivity|].
  apply (processScan_skips_when_update_fails cfg0 engine_succeeds scan_u1
           w_one_faulty).
  reflexivity.
Defined.

(** X15. A tick returns an error only when its listing query is rejected,
    and then it has processed nothing: no row, no result, no engine call
    and no registry entry has changed. Whatever happens to the jobs it
    does process (engine errors, rejected updates or inserts), the tick
    itself returns no error. *)
Theorem tick_fails_only_on_listing (cfg : config.Nuclei)
  (engine : nat -> list nucleiLib.NucleiSDKOptions -> list string -> nucleiLib.Run)
  (w : World) :
  (ScanWorker.processPendingScans cfg engine w).1 =
    (if rejected w then Some ScanRepository.driver_error else None) /\
  (rejected w = true ->
   scans (ScanWorker.processPendingScans cfg engine w).2 = scans w /\
   scan_results (ScanWorker.processPendingScans cfg engine w).2 =
     scan_results w /\
   nuclei_calls (ScanWorker.processPendingScans cfg engine w).2 =
     nuclei_calls w /\
   cancels (ScanWorker.processPendingScans cfg engine w).2 = cancels w).
Proof.
  rewrite processPendingScans_eq.
  pose proof (sent_frame w) as (Hsc & Hsr & Hc & _ & _ & _ & Hnc & _).
  destruct (rejected w); simpl.
  - auto.
  - split; [reflexivity|]. discriminate.
Qed.

Lemma tick_fails_only_on_listing_witness :
  (ScanWorker.processPendingScans cfg0 engine_succeeds w_one_faulty).1 =
    Some ScanRepository.driver_error /\
  scans (ScanWorker.processPendingScans cfg0 engine_succeeds w_one_faulty).2 =
    scans w_one_faulty /\
  scan_results (ScanWorker.processPendingScans cfg0 engine_succeeds w_one_faulty).2
    = scan_results w_one_faulty /\
  nuclei_calls (ScanWorker.processPendingScans cfg0 engine_succeeds w_one_faulty).2
    = nuclei_calls w_one_faulty /\
  cancels (ScanWorker.processPendingScans cfg0 engine_succeeds w_one_faulty).2 =
    cancels w_one_faulty.
Proof.
  destruct (tick_fails_only_on_listing cfg0 engine_succeeds w_one_faulty)
    as [H1 H2].
  split; [exact H1|]. apply H2. reflexivity.
Defined.

Lemma Forall2_impl_In {A B : Type} (P Q : A -> B -> Prop) (l : list A)
  (k : list B) :
  Forall2 P l k ->
  (forall x y, In x l -> P x y -> Q x y) ->
  Forall2 Q l k.
Proof.
  intros H. induction H as [|x y l k Hxy Hlk IH]; intros Himp; constructor.
  - apply Himp; [now left | exact Hxy].
  - apply IH. intros a b Ha. apply Himp. now right.
Qed.

Lemma selected_pending (w : World) (r : ScanRow) :
  In r (selected (Some model.ScanStatusPending) None w) <->
  In r (scans w) /\ row_status r = "pending".
Proof.
  unfold selected. rewrite filter_In. simpl.
  unfold ScanRepository.arg_eqb. simpl. rewrite andb_true_r.
  now rewrite String.eqb_eq.
Qed.

(** X16. A tick rewrites pending jobs only. With unique ids, every row
    whose status is not "pending" when the tick starts (running,
    completed, failed, cancelled or anything else) is, column for column,
    the same row when the tick ends: no job is run twice and no terminal
    status is left. *)
Theorem tick_leaves_non_pending_rows (cfg : config.Nuclei)
  (engine : nat -> list nucleiLib.NucleiSDKOptions -> list string -> nucleiLib.Run)
  (w : World) :
  pk_unique w ->
  Forall2 (fun r r' => row_status r <> "pending" -> r' = r)
    (scans w) (scans (ScanWorker.processPendingScans cfg engine w).2).
Proof.
  intros Hpk. destruct (tick_frame cfg engine w) as (Hw & _).
  eapply Forall2_impl_In; [exact Hw|].
  intros r r' Hr [->|(s & st & n & Hs & Hid & _ & _)] Hnp; [reflexivity|].
  exfalso. apply Hnp. unfold pending in Hs. apply in_map_iff in Hs.
  destruct Hs as (r0 & <- & Hr0). apply selected_pending in Hr0.
  destruct Hr0 as [Hr0 Hst]. simpl in Hid.
  now rewrite (NoDup_ids_eq (scans w) r r0 Hpk Hr Hr0 Hid).
Qed.

Lemma tick_leaves_non_pending_rows_witness :
  pk_unique w_done /\
  Forall2 (fun r r' => row_status r <> "pending" -> r' = r)
    (scans w_done)
    (scans (ScanWorker.processPendingScans cfg0 engine_cancelled w_done).2).
Proof.
  assert (Hpk : pk_unique w_done)
    by (vm_compute; apply NoDup_singleton).
  split; [exact Hpk|].
  apply (tick_leaves_non_pending_rows cfg0 engine_cancelled w_done Hpk).
Defined.

Lemma two_updates_settle (scan s1 sF : model.Scan) (t1 t2 : Z)
  (rows : list ScanRow) :
  model.ID s1 = model.ID scan -> model.ID sF = model.ID scan ->
  In (model.Status sF) final_statuses ->
  Forall2 (settled [scan]) rows
    (map (ScanRepository.update_row sF t2)
       (map (ScanRepository.update_row s1 t1) rows)).
Proof.
  intros H1 HF Hst. induction rows as [|r rows IH]; simpl; constructor; auto.
  unfold settled, listed, ScanRepository.update_row. simpl.
  rewrite H1, HF.
  destruct (String.eqb (row_id r) (model.ID scan)) eqn:E; simpl.
  - rewrite E. simpl. auto.
  - rewrite E. auto.
Qed.

Lemma processScan_no_faults (cfg : config.Nuclei)
  (engine : nat -> list nucleiLib.NucleiSDKOptions -> list string -> nucleiLib.Run)
  (scan : model.Scan) (w : World) :
  faults w = [] ->
  faults (ScanWorker.processScan cfg engine scan w).2 = [] /\
  Forall2 (settled [scan]) (scans w)
    (scans (ScanWorker.processScan cfg engine scan w).2).
Proof.
  intros Hf.
  split; [now apply (processScan_frame cfg engine scan w)|].
  rewrite processScan_eq. cbv zeta.
  set (s1 := model.set_Status "running" scan).
  pose proof (Update_frame s1 w) as (_ & _ & _ & _ & _ & U6 & U7 & U8).
  cbv zeta in *.
  destruct (no_faults_sent w Hf) as [Hrej _]. rewrite Hrej in U7, U8.
  rewrite U8. rewrite Hf in U6. simpl in U6.
  set (w1 := (ScanRepository.Update s1 w).2) in *.
  pose proof (StartScan_outcome cfg engine s1 w1) as (S1 & _ & S3 & _ & _).
  set (r := nucleiService.StartScan cfg engine s1 w1) in *.
  destruct (r.1.2) as [e|]; cbn [snd].
  - match goal with
    | |- context [ScanRepository.Update ?s r.2] =>
        pose proof (Update_frame s r.2) as (_ & _ & _ & _ & _ & _ & V7 & _)
    end.
    cbv zeta in V7.
    assert (F2 : faults r.2 = []) by now rewrite S3.
    destruct (no_faults_sent r.2 F2) as [Hrej2 _]. rewrite Hrej2 in V7.
    rewrite V7, S1, U7.
    apply two_updates_settle; simpl; auto.
  - pose proof (storeResults_frame r.1.1 r.2)
      as (T1 & _ & _ & _ & _ & _ & T7 & _).
    assert (F2 : faults r.2 = []) by now rewrite S3.
    specialize (T7 F2).
    set (w3 := (ScanWorker.storeResults r.1.1 r.2).2) in *.
    match goal with
    | |- context [ScanRepository.Update ?s w3] =>
        pose proof (Update_frame s w3) as (_ & _ & _ & _ & _ & _ & V7 & _)
    end.
    cbv zeta in V7.
    destruct (no_faults_sent w3 T7) as [Hrej3 _]. rewrite Hrej3 in V7.
    rewrite V7, T1, S1, U7.
    apply two_updates_settle; simpl; auto.
Qed.

Lemma settled_step (s : model.Scan) (S : list model.Scan) (a b c : list ScanRow) :
  Forall2 (settled [s]) a b -> Forall2 (settled S) b c ->
  Forall2 (settled (s :: S)) a c.
Proof.
  intros Hab. revert c.
  induction Hab as [|x y l k Hxy Hlk IH]; intros c Hbc.
  - inversion Hbc. constructor.
  - inversion Hbc as [|? z ? k' Hyz Hkk']; subst. constructor; [|now apply IH].
    destruct Hxy as [Hid1 H1], Hyz as [Hid2 H2].
    unfold settled, listed in *. simpl in *.
    rewrite Hid1 in H2. rewrite orb_false_r in H1.
    split; [congruence|].
    destruct (existsb _ S); simpl.
    + now rewrite orb_true_r.
    + rewrite orb_false_r. subst z.
      destruct (String.eqb (row_id x) (model.ID s)); assumption.
Qed.

Lemma process_all_no_faults (cfg : config.Nuclei)
  (engine : nat -> list nucleiLib.NucleiSDKOptions -> list string -> nucleiLib.Run)
  (S : list model.Scan) :
  forall w : World,
    faults w = [] ->
    Forall2 (settled S) (scans w)
      (scans (for_range S (ScanWorker.processScan cfg engine) w).2).
Proof.
  induction S as [|s S IH]; intros w Hf.
  - simpl. induction (scans w); constructor; auto. now split.
  - rewrite for_range_cons.
    destruct (processScan_no_faults cfg engine s w Hf) as [Hf1 H1].
    eapply settled_step; [exact H1|]. now apply IH.
Qed.

Lemma pending_row_is_listed (w : World) (r : ScanRow) :
  In r (scans w) -> row_status r = "pending" -> listed (pending w) r = true.
Proof.
  intros Hr Hst. unfold listed. apply existsb_exists.
  exists (ScanRepository.scan_of_row r). split.
  - unfold pending. apply in_map. now apply selected_pending.
  - simpl. apply String.eqb_refl.
Qed.

Lemma Forall2_right {A B : Type} (Q : B -> Prop) (l : list A) (k : list B) :
  Forall2 (fun _ y => Q y) l k -> Forall Q k.
Proof. induction 1; constructor; auto. Qed.

Lemma tick_no_faults (cfg : config.Nuclei)
  (engine : nat -> list nucleiLib.NucleiSDKOptions -> list string -> nucleiLib.Run)
  (w : World) :
  faults w = [] ->
  faults (ScanWorker.processPendingScans cfg engine w).2 = [] /\
  Forall2 (settled (pending w)) (scans w)
    (scans (ScanWorker.processPendingScans cfg engine w).2).
Proof.
  intros Hf. rewrite processPendingScans_eq.
  destruct (no_faults_sent w Hf) as [-> ->]. simpl. split.
  - now apply (process_all_frame cfg engine (pending w) w).
  - now apply process_all_no_faults.
Qed.

Lemma none_pending_after_fault_free_tick (cfg : config.Nuclei)
  (engine : nat -> list nucleiLib.NucleiSDKOptions -> list string -> nucleiLib.Run)
  (w : World) :
  faults w = [] ->
  Forall (fun r' => row_status r' <> "pending")
    (scans (ScanWorker.processPendingScans cfg engine w).2).
Proof.
  intros Hf. destruct (tick_no_faults cfg engine w Hf) as [_ H].
  apply (Forall2_right _ (scans w)).
  eapply Forall2_impl_In; [exact H|].
  intros r r' Hr [Hid Hs].
  destruct (listed (pending w) r) eqn:Hl.
  - intros E. rewrite E in Hs. destruct Hs as [Hs|[Hs|[]]]; discriminate Hs.
  - subst r'. intros E.
    rewrite (pending_row_is_listed w r Hr E) in Hl. discriminate Hl.
Qed.

(** X17. A tick in which no statement is rejected settles every pending
    job: each row that was "pending" is "failed" or "completed"
    afterwards, whatever the engine did (initialisation failure, error,
    cancellation or success), so that no row is pending when the tick
    ends; rows and ids are kept in place. *)
Theorem fault_free_tick_settles_pending (cfg : config.Nuclei)
  (engine : nat -> list nucleiLib.NucleiSDKOptions -> list string -> nucleiLib.Run)
  (w : World) :
  faults w = [] ->
  Forall2 (fun r r' => row_id r' = row_id r /\
                       (row_status r = "pending" ->
                        In (row_status r') ["failed"; "completed"]))
    (scans w) (scans (ScanWorker.processPendingScans cfg engine w).2) /\
  Forall (fun r' => row_status r' <> "pending")
    (scans (ScanWorker.processPendingScans cfg engine w).2).
Proof.
  intros Hf. destruct (tick_no_faults cfg engine w Hf) as [_ H]. split.
  - eapply Forall2_impl_In; [exact H|].
    intros r r' Hr [Hid Hs]. split; [exact Hid|]. intros Hst.
    now rewrite (pending_row_is_listed w r Hr Hst) in Hs.
  - now apply none_pending_after_fault_free_tick.
Qed.

Lemma fault_free_tick_settles_pending_witness :
  faults w_one = [] /\
  Forall2 (fun r r' => row_id r' = row_id r /\
                       (row_status r = "pending" ->
                        In (row_status r') ["failed"; "completed"]))
    (scans w_one)
    (scans (ScanWorker.processPendingScans cfg0 engine_init_fails w_one).2) /\
  Forall (fun r' => row_status r' <> "pending")
    (scans (ScanWorker.processPendingScans cfg0 engine_init_fails w_one).2).
Proof.
  split; [reflexivity|].
  apply (fault_free_tick_settles_pending cfg0 engine_init_fails w_one).
  reflexivity.
Defined.

Lemma no_pending_selected (w : World) :
  Forall (fun r => row_status r <> "pending") (scans w) -> pending w = [].
Proof.
  intros H. unfold pending.
  destruct (selected (Some model.ScanStatusPending) None w) as [|r l] eqn:Hs;
    [reflexivity|].
  assert (Hin : In r (selected (Some model.ScanStatusPending) None w))
    by (rewrite Hs; now left).
  apply selected_pending in Hin. destruct Hin as [Hin Hst].
  rewrite List.Forall_forall in H. now apply H in Hin.
Qed.

(** X18. Dispatch happens once. After a tick in which no statement was
    rejected, a further tick, with any engine, finds nothing to do: it
    returns no error and leaves the whole state (rows, results, registry,
    trace of engine calls) exactly as the first tick left it. *)
Theorem second_tick_does_nothing (cfg : config.Nuclei)
  (engine engine' :
     nat -> list nucleiLib.NucleiSDKOptions -> list string -> nucleiLib.Run)
  (w : World) :
  faults w = [] ->
  ScanWorker.processPendingScans cfg engine'
    (ScanWorker.processPendingScans cfg engine w).2 =
  (None, (ScanWorker.processPendingScans cfg engine w).2).
Proof.
  intros Hf.
  destruct (tick_no_faults cfg engine w Hf) as [Hf1 _].
  pose proof (none_pending_after_fault_free_tick cfg engine w Hf) as Hnp.
  set (w1 := (ScanWorker.processPendingScans cfg engine w).2) in *.
  rewrite processPendingScans_eq.
  destruct (no_faults_sent w1 Hf1) as [-> ->].
  now rewrite (no_pending_selected w1 Hnp).
Qed.

Lemma second_tick_does_nothing_witness :
  faults w_one = [] /\
  ScanWorker.processPendingScans cfg0 engine_succeeds
    (ScanWorker.processPendingScans cfg0 engine_emits_then_fails w_one).2 =
  (None, (ScanWorker.processPendingScans cfg0 engine_emits_then_fails w_one).2).
Proof.
  split; [reflexivity|].
  apply (second_tick_does_nothing cfg0 engine_emits_then_fails engine_succeeds
           w_one).
  reflexivity.
Defined.

(** ** What the store never holds *)

Lemma same_frames_error_and_options (rows rows' : list ScanRow) :
  map frame rows' = map frame rows ->
  error_and_options_null rows -> error_and_options_null rows'.
Proof.
  intros Hsame H. apply same_frames in Hsame.
  unfold error_and_options_null in *.
  induction Hsame as [|x y a b Hxy Hab IH]; [constructor|].
  inversion H as [|? ? [H1 H2] Hrest]; subst.
  constructor; [|now apply IH].
  unfold frame in Hxy. split; congruence.
Qed.

Lemma run_op_error_and_options (cfg : config.Nuclei)
  (engine : nat -> list nucleiLib.NucleiSDKOptions -> list string -> nucleiLib.Run)
  (op : Op) (w : World) :
  pk_unique w -> error_and_options_null (scans w) ->
  error_and_options_null (scans (run_op cfg engine op w)).
Proof.
  intros Hpk H. destruct op as [uuid input|st tg tp|id|id|id|]; simpl.
  - rewrite submit_eq. simpl. rewrite Create_eq. simpl.
    match goal with |- context [sent ?x] => pose proof (sent_frame x) as (Hsc & _) end.
    simpl in Hsc.
    destruct (rejected _); simpl; [now rewrite Hsc|].
    destruct (existsb _ (scans w)); simpl; [now rewrite Hsc|].
    apply Forall_app. split; [exact H|]. now repeat constructor.
  - unfold scanService.ListScans. unfold bind. rewrite List_eq.
    pose proof (sent_frame w) as (Hsc & _). simpl.
    destruct (rejected w); simpl; [now rewrite Hsc|].
    destruct (ScanRepository.params_ok _ _); simpl; now rewrite Hsc.
  - unfold scanService.GetScan. rewrite Get_eq. simpl.
    pose proof (sent_frame w) as (Hsc & _). now rewrite Hsc.
  - destruct (DeleteScan_scans id w) as [-> | ->]; [exact H|].
    unfold error_and_options_null in *. rewrite List.Forall_forall in *.
    intros x Hx. apply filter_In in Hx. now apply H.
  - now rewrite CancelScan_scans.
  - eapply same_frames_error_and_options; [|exact H].
    now apply tick_keeps_frame.
Qed.

(** X19. In every reachable state every job row has a null [error] and
    null [options]: the options given at submission are not inserted, and
    the failure reason the worker sets on a failed scan ([scan.Error]) is
    not among the columns [Update] writes, so a Failed job carries no
    reason in the store. *)
Theorem error_and_options_are_never_stored (cfg : config.Nuclei)
  (engine : nat -> list nucleiLib.NucleiSDKOptions -> list string -> nucleiLib.Run)
  (w : World) :
  reachable cfg engine w ->
  Forall (fun r => row_error r = None /\ row_options r = None) (scans w).
Proof.
  induction 1 as [w (Hs & _ & _)|w op Hr IH].
  - rewrite Hs. constructor.
  - apply run_op_error_and_options; [|exact IH].
    now apply (reachable_invariants cfg engine w).
Qed.

Lemma error_and_options_are_never_stored_witness :
  reachable cfg0 engine_emits_then_fails
    (run_op cfg0 engine_emits_then_fails Tick
       (run_op cfg0 engine_emits_then_fails (Submit "u1" input_x) w_empty)) /\
  Forall (fun r => row_error r = None /\ row_options r = None)
    (scans (run_op cfg0 engine_emits_then_fails Tick
              (run_op cfg0 engine_emits_then_fails (Submit "u1" input_x)
                 w_empty))).
Proof.
  assert (H : reachable cfg0 engine_emits_then_fails
                (run_op cfg0 engine_emits_then_fails Tick
                   (run_op cfg0 engine_emits_then_fails (Submit "u1" input_x)
                      w_empty))).
  { apply reachable_step. apply reachable_step. apply reachable_initial.
    split; [reflexivity|]. split; reflexivity. }
  split; [exact H|].
  apply (error_and_options_are_never_stored cfg0 engine_emits_then_fails _ H).
Defined.

(** X20. In every reachable state no two rows of the scans table have the
    same id: [Create] refuses an id that is present, updates keep ids and
    deletions only remove rows. *)
Theorem ids_are_unique (cfg : config.Nuclei)
  (engine : nat -> list nucleiLib.NucleiSDKOptions -> list string -> nucleiLib.Run)
  (w : World) :
  reachable cfg engine w -> NoDup (map row_id (scans w)).
Proof.
  induction 1 as [w (Hs & _ & _)|w op Hr IH].
  - rewrite Hs. constructor.
  - apply (scans_step_invariants (scans w)).
    + now apply run_op_scans_step.
    + split; [exact IH|]. now apply (reachable_invariants cfg engine w).
Qed.

Lemma ids_are_unique_witness :
  reachable cfg0 engine_succeeds
    (run_op cfg0 engine_succeeds (Submit "u1" input_empty_target)
       (run_op cfg0 engine_succeeds (Submit "u1" input_x) w_empty)) /\
  NoDup (map row_id
           (scans (run_op cfg0 engine_succeeds (Submit "u1" input_empty_target)
                     (run_op cfg0 engine_succeeds (Submit "u1" input_x)
                        w_empty)))).
Proof.
  assert (H : reachable cfg0 engine_succeeds
                (run_op cfg0 engine_succeeds (Submit "u1" input_empty_target)
                   (run_op cfg0 engine_succeeds (Submit "u1" input_x) w_empty))).
  { apply reachable_step. apply reachable_step. apply reachable_initial.
    split; [reflexivity|]. split; reflexivity. }
  split; [exact H|].
  apply (ids_are_unique cfg0 engine_succeeds _ H).
Defined.

(** ** From submission to execution *)

Lemma Forall2_In_left {A B : Type} (P : A -> B -> Prop) (l : list A)
  (k : list B) (x : A) :
  Forall2 P l k -> In x l -> exists y, In y k /\ P x y.
Proof.
  intros H. induction H as [|a b l k Hab Hlk IH]; intros Hin; [contradiction|].
  destruct Hin as [->|Hin].
  - exists b. split; [now left | exact Hab].
  - destruct (IH Hin) as (y & Hy & Hp). exists y. split; [now right | exact Hp].
Qed.

(** X21. A submitted job is run by the next tick. On a store that does
    not hold the identifier drawn, and with no rejected statement, a
    submission followed by a tick hands the new job to the engine adapter
    exactly as a call with its id, the target submitted, status "running"
    and the fixed selectors and options; when the tick ends the job's row
    is "failed" or "completed". *)
Theorem submitted_job_is_run_by_next_tick (cfg : config.Nuclei)
  (engine : nat -> list nucleiLib.NucleiSDKOptions -> list string -> nucleiLib.Run)
  (uuid : string) (input : model.StartScanInput) (w : World) :
  faults w = [] ->
  ~ In uuid (map row_id (scans w)) ->
  (exists calls c,
     nuclei_calls (ScanWorker.processPendingScans cfg engine
                     (scanService.StartScan uuid input w).2).2 =
       nuclei_calls w ++ calls /\
     In c calls /\ model.ID c = uuid /\
     model.Target c = model.input_Target input /\
     model.Status c = "running" /\ has_defaults c) /\
  (exists r,
     In r (scans (ScanWorker.processPendingScans cfg engine
                    (scanService.StartScan uuid input w).2).2) /\
     row_id r = uuid /\ In (row_status r) ["failed"; "completed"]).
Proof.
  intros Hf Hfresh.
  set (w1 := (scanService.StartScan uuid input w).2).
  set (row := created_row (submitted_scan uuid input (clock w)) (clock w + 1 + 1)).
  assert (H1 : scans w1 = scans w ++ [row] /\ faults w1 = [] /\
               nuclei_calls w1 = nuclei_calls w).
  { unfold w1. rewrite submit_eq. simpl. rewrite Create_eq. simpl.
    rewrite rejected_set_clock.
    destruct (no_faults_sent w Hf) as [Hrej _]. rewrite Hrej.
    rewrite (has_id_false uuid (scans w) Hfresh). simpl.
    match goal with
    | |- context [sent ?x] =>
        pose proof (sent_frame x) as (_ & _ & _ & _ & _ & _ & Hnc & Hfl)
    end.
    simpl in Hnc, Hfl. rewrite Hf in Hfl. auto. }
  destruct H1 as (Hsc & Hf1 & Hnc).
  assert (Hrow : In row (scans w1)).
  { rewrite Hsc. apply in_or_app. right. now left. }
  split.
  - destruct (tick_frame cfg engine w1) as (_ & (calls & C1 & _ & C3) & _).
    specialize (C3 Hf1). rewrite Hnc in C1.
    exists calls, (model.set_Status "running" (ScanRepository.scan_of_row row)).
    split; [exact C1|]. split.
    + rewrite C3. apply in_map. unfold pending. apply in_map.
      apply selected_pending. now split.
    + simpl. repeat split.
  - destruct (tick_no_faults cfg engine w1 Hf1) as [_ Hs].
    destruct (Forall2_In_left _ _ _ row Hs Hrow) as (r' & Hr' & Hid & Hst).
    rewrite (pending_row_is_listed w1 row Hrow eq_refl) in Hst.
    exists r'. split; [exact Hr'|]. split; [exact Hid | exact Hst].
Qed.

Lemma submitted_job_is_run_by_next_tick_witness :
  faults w_one = [] /\
  ~ In "u2" (map row_id (scans w_one)) /\
  (exists calls c,
     nuclei_calls (ScanWorker.processPendingScans cfg0 engine_succeeds
                     (scanService.StartScan "u2" input_x w_one).2).2 =
       nuclei_calls w_one ++ calls /\
     In c calls /\ model.ID c = "u2" /\
     model.Target c = model.input_Target input_x /\
     model.Status c = "running" /\ has_defaults c) /\
  (exists r,
     In r (scans (ScanWorker.processPendingScans cfg0 engine_succeeds
                    (scanService.StartScan "u2" input_x w_one).2).2) /\
     row_id r = "u2" /\ In (row_status r) ["failed"; "completed"]).
Proof.
  assert (Hfresh : ~ In "u2" (map row_id (scans w_one))).
  { simpl. intros [H|[]]. discriminate H. }
  split; [reflexivity|]. split; [exact Hfresh|].
  apply (submitted_job_is_run_by_next_tick cfg0 engine_succeeds "u2" input_x
           w_one); [reflexivity | exact Hfresh].
Defined.

(** ** Results are only appended *)

Lemma storeResults_appends (results : list model.ScanResult) :
  forall w : World,
    exists stored,
      scan_results (ScanWorker.storeResults results w).2 =
        scan_results w ++ stored /\
      Forall (fun x => In x (map ScanRepository.row_of_result results)) stored.
Proof.
  induction results as [|r results IH]; intros w.
  - exists []. simpl. split; [now rewrite app_nil_r | constructor].
  - rewrite storeResults_cons.
    pose proof (AddResult_frame r w) as (_ & _ & _ & _ & _ & _ & _ & A8).
    destruct (IH (ScanRepository.AddResult r w).2) as (stored & I1 & I2).
    eexists. split.
    + rewrite I1, A8, <- app_assoc. reflexivity.
    + apply Forall_app. split.
      * destruct (negb (rejected w) && existsb _ (scans w));
          constructor; [now left | constructor].
      * eapply Forall_impl; [exact I2|]. intros x Hx. now right.
Qed.

Lemma StartScan_result_ids (cfg : config.Nuclei)
  (engine : nat -> list nucleiLib.NucleiSDKOptions -> list string -> nucleiLib.Run)
  (scan : model.Scan) (w : World) :
  Forall (fun r => model.ScanID r = model.ID scan)
    (nucleiService.StartScan cfg engine scan w).1.1.
Proof.
  pose proof (StartScan_outcome cfg engine scan w) as (_ & _ & _ & _ & H).
  destruct (nucleiService.run_of cfg engine scan w) as [err|events i [e|]].
  - rewrite H. constructor.
  - rewrite H. constructor.
  - apply H.
Qed.

Lemma processScan_appends (cfg : config.Nuclei)
  (engine : nat -> list nucleiLib.NucleiSDKOptions -> list string -> nucleiLib.Run)
  (scan : model.Scan) (w : World) :
  exists stored,
    scan_results (ScanWorker.processScan cfg engine scan w).2 =
      scan_results w ++ stored /\
    Forall (fun x => res_scan_id x = model.ID scan) stored.
Proof.
  rewrite processScan_eq. cbv zeta.
  set (s1 := model.set_Status "running" scan).
  pose proof (Update_frame s1 w) as (U1 & _). cbv zeta in U1.
  destruct ((ScanRepository.Update s1 w).1) as [e|].
  - exists []. simpl. rewrite app_nil_r. split; [exact U1 | constructor].
  - set (w1 := (ScanRepository.Update s1 w).2) in *.
    pose proof (StartScan_outcome cfg engine s1 w1) as (_ & S2 & _).
    pose proof (StartScan_result_ids cfg engine s1 w1) as Hids.
    set (r := nucleiService.StartScan cfg engine s1 w1) in *.
    destruct (r.1.2) as [e|]; cbn [snd].
    + match goal with
      | |- context [ScanRepository.Update ?s r.2] =>
          pose proof (Update_frame s r.2) as (V1 & _)
      end.
      cbv zeta in V1. exists []. rewrite app_nil_r.
      split; [now rewrite V1, S2, U1 | constructor].
    + destruct (storeResults_appends r.1.1 r.2) as (stored & T1 & T2).
      match goal with
      | |- context [ScanRepository.Update ?s ?w3] =>
          pose proof (Update_frame s w3) as (V1 & _)
      end.
      cbv zeta in V1. exists stored. split; [now rewrite V1, T1, S2, U1|].
      eapply Forall_impl; [exact T2|]. intros x Hx.
      apply in_map_iff in Hx. destruct Hx as (res & <- & Hres).
      rewrite List.Forall_forall in Hids. simpl.
      now rewrite (Hids res Hres).
Qed.

Lemma process_all_appends (cfg : config.Nuclei)
  (engine : nat -> list nucleiLib.NucleiSDKOptions -> list string -> nucleiLib.Run)
  (S : list model.Scan) :
  forall w : World,
    exists stored,
      scan_results (for_range S (ScanWorker.processScan cfg engine) w).2 =
        scan_results w ++ stored /\
      Forall (fun x => In (res_scan_id x) (map model.ID S)) stored.
Proof.
  induction S as [|s S IH]; intros w.
  - exists []. simpl. split; [now rewrite app_nil_r | constructor].
  - rewrite for_range_cons.
    destruct (processScan_appends cfg engine s w) as (st1 & P1 & P2).
    destruct (IH (ScanWorker.processScan cfg engine s w).2) as (st2 & I1 & I2).
    exists (st1 ++ st2). split; [now rewrite I1, P1, <- app_assoc|].
    apply Forall_app. split.
    + eapply Forall_impl; [exact P2|]. intros x Hx. now left.
    + eapply Forall_impl; [exact I2|]. intros x Hx. now right.
Qed.

(** X22. A tick only appends to the results table: the rows that were
    there are kept, in order, at the front, whatever is rejected and
    whatever the engine does; and every row the tick adds is a result of a
    job that was pending when the tick started. *)
Theorem tick_only_appends_results (cfg : config.Nuclei)
  (engine : nat -> list nucleiLib.NucleiSDKOptions -> list string -> nucleiLib.Run)
  (w : World) :
  exists stored,
    scan_results (ScanWorker.processPendingScans cfg engine w).2 =
      scan_results w ++ stored /\
    Forall (fun x => exists r, In r (scans w) /\ row_status r = "pending" /\
                               res_scan_id x = row_id r) stored.
Proof.
  rewrite processPendingScans_eq.
  pose proof (sent_frame w) as (_ & Hsr & _).
  destruct (rejected w); simpl.
  - exists []. rewrite app_nil_r. split; [exact Hsr | constructor].
  - destruct (process_all_appends cfg engine (pending w) (sent w))
      as (stored & H1 & H2).
    exists stored. split; [now rewrite H1, Hsr|].
    eapply Forall_impl; [exact H2|]. intros x Hx.
    apply in_map_iff in Hx. destruct Hx as (s & Hid & Hs).
    unfold pending in Hs. apply in_map_iff in Hs. destruct Hs as (r & <- & Hr).
    apply selected_pending in Hr. destruct Hr as [Hr Hst].
    exists r. simpl in Hid. auto.
Qed.
